(** * REUNITE lost-and-found: the in-memory store [MemStorage]

    A shallow embedding of [server/storage.ts] (class [MemStorage]) and of the
    parts of the JavaScript runtime it relies on, followed by the properties
    of the store.

    Conventions of the embedding.
    - A JavaScript [number] that holds an identifier, a counter or a time
      value is an integer below 2^53, where [double] arithmetic is exact; it
      is a [Z] here.  [limit] and [offset] come from [parseInt] and may also
      be [NaN], so they have the type [number] below.
    - A [Date] is its time value in milliseconds ([getTime()]); invalid dates
      are outside the model.
    - A [string] is a sequence of ASCII characters and [toLowerCase] is the
      ASCII restriction of [String.prototype.toLowerCase].
    - A JavaScript [Map] iterates in insertion order, so it is an association
      list in insertion order, not a finite map.
    - Every entry of a [Map] of the store holds an object of its own (objects
      are made by [createX] and [updateItem] only, and stored under one key),
      so the in-place updates [item.views += 1] and [message.read = true] are
      the replacement of one entry. *)

From Stdlib Require Import ZArith List String Ascii Bool Lia.
From Stdlib Require Import Permutation Sorted.
Import ListNotations.
Local Open Scope Z_scope.

(* ------------------------------------------------------------------ *)
(** * The JavaScript runtime, as far as the store uses it *)

Module Js.

(** A property that may be missing ([undefined]), [null], or hold a value. *)
Inductive optional (A : Type) : Type :=
| Undefined : optional A
| Null : optional A
| Val : A -> optional A.
Arguments Undefined {A}.
Arguments Null {A}.
Arguments Val {A} _.

(** The numbers [parseInt] produces. *)
Inductive number : Type :=
| Num : Z -> number
| NaN : number.

(** ** Truthiness ([ToBoolean]) of the values the store tests *)

Definition truthy_string (s : option string) : bool :=
  match s with
  | Some s => negb (String.eqb s "")
  | None => false
  end.

Definition truthy_number (n : option number) : bool :=
  match n with
  | Some (Num z) => negb (z =? 0)
  | Some NaN => false
  | None => false
  end.

(** [x || 0] on an optional number: every falsy [x] becomes [0]. *)
Definition or_zero (n : option number) : Z :=
  match n with
  | Some (Num z) => z
  | Some NaN => 0
  | None => 0
  end.

(** [x || null] on an optional string: [undefined], [null] and the empty
    string become [null]. *)
Definition or_null_string (s : optional string) : optional string :=
  match s with
  | Val s => if String.eqb s "" then Null else Val s
  | _ => Null
  end.

(** [x || null] on an optional array: an array is truthy, also when empty. *)
Definition or_null_array {A : Type} (a : optional (list A)) : optional (list A) :=
  match a with
  | Val l => Val l
  | _ => Null
  end.

(** [x!] on an optional string the guard has found truthy; the assertion
    is erased at run time. *)
Definition non_null (s : option string) : string :=
  match s with
  | Some s => s
  | None => ""
  end.

(** [a === b] between a string and a string that may be [undefined]. *)
Definition strict_eq_string (a : string) (b : option string) : bool :=
  match b with
  | Some b => String.eqb a b
  | None => false
  end.

(** [a === b] between an optional number property and a number. *)
Definition strict_eq_num (a : optional Z) (b : Z) : bool :=
  match a with
  | Val a => a =? b
  | _ => false
  end.

(** ** [Array.prototype.slice] *)

(** The clamping of a relative index: a negative index counts from the end. *)
Definition rel_index (len i : Z) : Z :=
  if i <? 0 then Z.max (len + i) 0 else Z.min i len.

Definition slice {A : Type} (l : list A) (start stop : Z) : list A :=
  let len := Z.of_nat (List.length l) in
  let k := rel_index len start in
  let final := rel_index len stop in
  firstn (Z.to_nat (final - k)) (skipn (Z.to_nat k) l).

(** ** [Array.prototype.sort] with the comparator [(a, b) => key(b) - key(a)]

    The sort of an array is stable, and a stable sort by a total preorder has
    one result, so any stable algorithm is a model: here, insertion from the
    right, an element going in front of its equals. *)

Section SortDesc.
Context {A : Type} (key : A -> Z).

Fixpoint insert_desc (x : A) (l : list A) : list A :=
  match l with
  | [] => [x]
  | y :: l' => if key x <? key y then y :: insert_desc x l' else x :: y :: l'
  end.

Fixpoint sort_desc (l : list A) : list A :=
  match l with
  | [] => []
  | x :: l' => insert_desc x (sort_desc l')
  end.

(** The order of the result: each element is at least as recent as every
    later one. *)
Definition desc (a b : A) : Prop := key b <= key a.
End SortDesc.

(** ** Strings *)

Definition lower_ascii (c : ascii) : ascii :=
  let n := nat_of_ascii c in
  if (Nat.leb 65 n && Nat.leb n 90)%bool then ascii_of_nat (n + 32) else c.

Fixpoint toLowerCase (s : string) : string :=
  match s with
  | EmptyString => EmptyString
  | String c s' => String (lower_ascii c) (toLowerCase s')
  end.

Fixpoint startsWith (s q : string) : bool :=
  match q, s with
  | EmptyString, _ => true
  | String _ _, EmptyString => false
  | String b q', String a s' => (Ascii.eqb a b && startsWith s' q')%bool
  end.

(** [s.includes(q)]. *)
Fixpoint includes (s q : string) : bool :=
  (startsWith s q ||
   match s with
   | EmptyString => false
   | String _ s' => includes s' q
   end)%bool.

(** ** [Map] with number keys, in insertion order *)

Definition Map (V : Type) : Type := list (Z * V).

Definition empty {V : Type} : Map V := [].

Fixpoint get {V : Type} (m : Map V) (k : Z) : option V :=
  match m with
  | [] => None
  | (k', v) :: m' => if k' =? k then Some v else get m' k
  end.

(** [set] keeps the place of a key that is there and appends a new one. *)
Fixpoint set {V : Type} (m : Map V) (k : Z) (v : V) : Map V :=
  match m with
  | [] => [(k, v)]
  | (k', v') :: m' => if k' =? k then (k, v) :: m' else (k', v') :: set m' k v
  end.

Definition has {V : Type} (m : Map V) (k : Z) : bool :=
  match get m k with
  | Some _ => true
  | None => false
  end.

(** [delete] removes the entry and tells whether there was one. *)
Fixpoint remove {V : Type} (m : Map V) (k : Z) : Map V :=
  match m with
  | [] => []
  | (k', v) :: m' => if k' =? k then remove m' k else (k', v) :: remove m' k
  end.

Definition delete {V : Type} (m : Map V) (k : Z) : bool * Map V :=
  (has m k, remove m k).

Definition keys {V : Type} (m : Map V) : list Z := map fst m.

Definition values {V : Type} (m : Map V) : list V := map snd m.

(** [Array.prototype.find]. *)
Definition find {A : Type} (p : A -> bool) (l : list A) : option A :=
  List.find p l.

(** ** [parseInt] with no radix, on ASCII strings

    The leading white space goes, then a sign, then a [0x] or [0X] that
    makes the radix 16; the longest prefix of digits of the radix is read,
    and there is no number when it is empty.  The value is read exactly, as
    it is for the numbers below 2^53. *)

Definition is_white_space (c : ascii) : bool :=
  let n := nat_of_ascii c in
  (Nat.eqb n 9 || Nat.eqb n 10 || Nat.eqb n 11 || Nat.eqb n 12
   || Nat.eqb n 13 || Nat.eqb n 32)%bool.

Fixpoint trimStart (s : string) : string :=
  match s with
  | EmptyString => EmptyString
  | String c s' => if is_white_space c then trimStart s' else s
  end.

(** The value of a character as a digit of the radix, when it is one. *)
Definition digit_value (radix : Z) (c : ascii) : option Z :=
  let n := Z.of_nat (nat_of_ascii c) in
  let v :=
    if ((48 <=? n) && (n <=? 57))%bool then Some (n - 48)
    else if ((97 <=? n) && (n <=? 122))%bool then Some (n - 87)
    else if ((65 <=? n) && (n <=? 90))%bool then Some (n - 55)
    else None in
  match v with
  | Some d => if d <? radix then Some d else None
  | None => None
  end.

(** The value of the longest prefix of digits, [acc] being the value of the
    digits read so far, if any. *)
Fixpoint digits (radix : Z) (s : string) (acc : option Z) : option Z :=
  match s with
  | EmptyString => acc
  | String c s' =>
    match digit_value radix c with
    | Some d =>
      digits radix s'
        (Some (match acc with Some a => a * radix + d | None => d end))
    | None => acc
    end
  end.

Definition parseInt (inputString : string) : number :=
  let s := trimStart inputString in
  let sign :=
    match s with
    | String "-" _ => -1
    | _ => 1
    end in
  let s :=
    match s with
    | String "-" r => r
    | String "+" r => r
    | _ => s
    end in
  let '(radix, s) :=
    match s with
    | String "0" (String "x" r) => (16, r)
    | String "0" (String "X" r) => (16, r)
    | _ => (10, s)
    end in
  match digits radix s None with
  | Some mathInt => Num (sign * mathInt)
  | None => NaN
  end.

(** A method of the store that takes a key, called on a number: no key of
    the store is [NaN], so on [NaN] the method finds nothing. *)
Definition on_number {A : Type} (n : number) (absent : A) (f : Z -> A) : A :=
  match n with
  | Num z => f z
  | NaN => absent
  end.

(** [!n] on a number. *)
Definition falsy_number (n : number) : bool :=
  match n with
  | Num z => z =? 0
  | NaN => true
  end.

End Js.

(* ------------------------------------------------------------------ *)
(** * The entities ([@shared/schema]) *)

(** Modelled from the spec: the type declarations [User], [InsertUser],
    [Item], [InsertItem], [Message] and [InsertMessage] of [@shared/schema],
    which the store imports; the fields are those of the data model, and an
    [InsertX] is an [X] without the fields the store assigns. *)

Module InsertUser.
Record t : Type := mk {
  username : string;
  password : string;
  email : string;
  name : string
}.
End InsertUser.

Module User.
Record t : Type := mk {
  id : Z;
  username : string;
  password : string;
  email : string;
  name : string;
  createdAt : Z
}.
End User.

(** A latitude and longitude pair.  The store carries it and never looks
    inside; a component is an integer here, in millionths of a degree. *)
Record Coordinates : Type := mkCoordinates {
  lat : Z;
  lng : Z
}.

Module InsertItem.
Record t : Type := mk {
  userId : Js.optional Z;
  name : string;
  type : string;
  description : string;
  status : string;
  date : Z;
  location : string;
  locationDetails : Js.optional string;
  coordinates : Js.optional Coordinates;
  images : Js.optional (list string);
  contactName : string;
  contactEmail : string
}.
End InsertItem.

Module Item.
Record t : Type := mk {
  id : Z;
  userId : Js.optional Z;
  name : string;
  type : string;
  description : string;
  status : string;
  date : Z;
  location : string;
  locationDetails : Js.optional string;
  coordinates : Js.optional Coordinates;
  images : Js.optional (list string);
  contactName : string;
  contactEmail : string;
  views : Z;
  createdAt : Z
}.
End Item.

(** [Partial<Item>]: each key is absent ([None]) or present with a value. *)
Module PartialItem.
Record t : Type := mk {
  id : option Z;
  userId : option (Js.optional Z);
  name : option string;
  type : option string;
  description : option string;
  status : option string;
  date : option Z;
  location : option string;
  locationDetails : option (Js.optional string);
  coordinates : option (Js.optional Coordinates);
  images : option (Js.optional (list string));
  contactName : option string;
  contactEmail : option string;
  views : option Z;
  createdAt : option Z
}.

(** The object with no key. *)
Definition none : t :=
  mk None None None None None None None None None None None None None None None.
End PartialItem.

Module InsertMessage.
Record t : Type := mk {
  itemId : Z;
  fromUserId : Z;
  toUserId : Z;
  content : string
}.
End InsertMessage.

Module Message.
Record t : Type := mk {
  id : Z;
  itemId : Z;
  fromUserId : Z;
  toUserId : Z;
  content : string;
  read : bool;
  createdAt : Z
}.
End Message.

(** One key of the spread [{ ...item, ...updateData }]. *)
Definition spread_key {A : Type} (old : A) (upd : option A) : A :=
  match upd with
  | Some v => v
  | None => old
  end.

(** [{ ...item, ...updateData }] *)
Definition spread (item : Item.t) (updateData : PartialItem.t) : Item.t :=
  Item.mk
    (spread_key (Item.id item) (PartialItem.id updateData))
    (spread_key (Item.userId item) (PartialItem.userId updateData))
    (spread_key (Item.name item) (PartialItem.name updateData))
    (spread_key (Item.type item) (PartialItem.type updateData))
    (spread_key (Item.description item) (PartialItem.description updateData))
    (spread_key (Item.status item) (PartialItem.status updateData))
    (spread_key (Item.date item) (PartialItem.date updateData))
    (spread_key (Item.location item) (PartialItem.location updateData))
    (spread_key (Item.locationDetails item) (PartialItem.locationDetails updateData))
    (spread_key (Item.coordinates item) (PartialItem.coordinates updateData))
    (spread_key (Item.images item) (PartialItem.images updateData))
    (spread_key (Item.contactName item) (PartialItem.contactName updateData))
    (spread_key (Item.contactEmail item) (PartialItem.contactEmail updateData))
    (spread_key (Item.views item) (PartialItem.views updateData))
    (spread_key (Item.createdAt item) (PartialItem.createdAt updateData)).

(** [item.views += 1] *)
Definition add_view (item : Item.t) : Item.t :=
  Item.mk (Item.id item) (Item.userId item) (Item.name item) (Item.type item)
    (Item.description item) (Item.status item) (Item.date item)
    (Item.location item) (Item.locationDetails item) (Item.coordinates item)
    (Item.images item) (Item.contactName item) (Item.contactEmail item)
    (Item.views item + 1) (Item.createdAt item).

(** [message.read = true] *)
Definition set_read (message : Message.t) : Message.t :=
  Message.mk (Message.id message) (Message.itemId message)
    (Message.fromUserId message) (Message.toUserId message)
    (Message.content message) true (Message.createdAt message).

(* ------------------------------------------------------------------ *)
(** * The store *)

Record MemStorage : Type := mkMemStorage {
  users : Js.Map User.t;
  items : Js.Map Item.t;
  messages : Js.Map Message.t;
  userIdCounter : Z;
  itemIdCounter : Z;
  messageIdCounter : Z
}.

(** [constructor()] *)
Definition constructor : MemStorage :=
  mkMemStorage Js.empty Js.empty Js.empty 1 1 1.

Definition with_items (st : MemStorage) (m : Js.Map Item.t) : MemStorage :=
  mkMemStorage (users st) m (messages st)
    (userIdCounter st) (itemIdCounter st) (messageIdCounter st).

Definition with_messages (st : MemStorage) (m : Js.Map Message.t) : MemStorage :=
  mkMemStorage (users st) (items st) m
    (userIdCounter st) (itemIdCounter st) (messageIdCounter st).

(** ** User methods *)

Definition getUser (st : MemStorage) (id : Z) : option User.t :=
  Js.get (users st) id.

Definition getUserByUsername (st : MemStorage) (username : string) : option User.t :=
  Js.find (fun user => String.eqb (User.username user) username)
    (Js.values (users st)).

Definition getUserByEmail (st : MemStorage) (email : string) : option User.t :=
  Js.find (fun user => String.eqb (User.email user) email)
    (Js.values (users st)).

(** [now] is the time value of [new Date()] at the call. *)
Definition createUser (now : Z) (st : MemStorage) (insertUser : InsertUser.t)
  : User.t * MemStorage :=
  let id := userIdCounter st in
  let createdAt := now in
  let user :=
    User.mk id (InsertUser.username insertUser) (InsertUser.password insertUser)
      (InsertUser.email insertUser) (InsertUser.name insertUser) createdAt in
  (user,
   mkMemStorage (Js.set (users st) id user) (items st) (messages st)
     (userIdCounter st + 1) (itemIdCounter st) (messageIdCounter st)).

(** ** Item methods *)

Definition getItem (st : MemStorage) (id : Z) : option Item.t :=
  Js.get (items st) id.

Record GetItemsOptions : Type := mkGetItemsOptions {
  g_status : option string;
  g_type : option string;
  g_userId : option Z;
  g_limit : option Js.number;
  g_offset : option Js.number
}.

Definition getItems (st : MemStorage) (options : option GetItemsOptions)
  : list Item.t :=
  let items0 := Js.values (items st) in
  match options with
  | None => items0
  | Some options =>
    let items1 :=
      if Js.truthy_string (g_status options)
      then filter (fun item =>
                     Js.strict_eq_string (Item.status item) (g_status options))
             items0
      else items0 in
    let items2 :=
      if Js.truthy_string (g_type options)
      then filter (fun item =>
                     Js.strict_eq_string (Item.type item) (g_type options))
             items1
      else items1 in
    let items3 :=
      match g_userId options with
      | Some u => filter (fun item => Js.strict_eq_num (Item.userId item) u) items2
      | None => items2
      end in
    let items4 := Js.sort_desc Item.createdAt items3 in
    if Js.truthy_number (g_limit options)
    then
      (* here [limit] is a number other than 0, which [or_zero] reads *)
      let offset := Js.or_zero (g_offset options) in
      Js.slice items4 offset (offset + Js.or_zero (g_limit options))
    else items4
  end.

Definition createItem (now : Z) (st : MemStorage) (insertItem : InsertItem.t)
  : Item.t * MemStorage :=
  let id := itemIdCounter st in
  let createdAt := now in
  let views := 0 in
  let images := Js.or_null_array (InsertItem.images insertItem) in
  let locationDetails := Js.or_null_string (InsertItem.locationDetails insertItem) in
  let item :=
    Item.mk id (InsertItem.userId insertItem) (InsertItem.name insertItem)
      (InsertItem.type insertItem) (InsertItem.description insertItem)
      (InsertItem.status insertItem) (InsertItem.date insertItem)
      (InsertItem.location insertItem) locationDetails
      (InsertItem.coordinates insertItem) images
      (InsertItem.contactName insertItem) (InsertItem.contactEmail insertItem)
      views createdAt in
  (item,
   mkMemStorage (users st) (Js.set (items st) id item) (messages st)
     (userIdCounter st) (itemIdCounter st + 1) (messageIdCounter st)).

Definition updateItem (st : MemStorage) (id : Z) (updateData : PartialItem.t)
  : option Item.t * MemStorage :=
  match getItem st id with
  | None => (None, st)
  | Some item =>
    let updatedItem := spread item updateData in
    (Some updatedItem, with_items st (Js.set (items st) id updatedItem))
  end.

Definition deleteItem (st : MemStorage) (id : Z) : bool * MemStorage :=
  let (existed, m) := Js.delete (items st) id in
  (existed, with_items st m).

Definition incrementItemViews (st : MemStorage) (id : Z) : MemStorage :=
  match getItem st id with
  | Some item => with_items st (Js.set (items st) id (add_view item))
  | None => st
  end.

Record SearchOptions : Type := mkSearchOptions {
  s_status : option string;
  s_type : option string;
  s_date : option Z;
  s_location : option string
}.

Section Search.
(** The offset of local time from UTC, in milliseconds, at an instant: the
    time zone of the host. *)
Variable tzOffset : Z -> Z.

(** [toDateString()] names the local calendar day; the day is given here by
    its number, which the string determines and is determined by. *)
Definition toDateString (t : Z) : Z := (t + tzOffset t) / 86400000.

(** The text filter of [searchItems]. *)
Definition matches_query (lowerQuery : string) (item : Item.t) : bool :=
  (Js.includes (Js.toLowerCase (Item.name item)) lowerQuery
   || Js.includes (Js.toLowerCase (Item.description item)) lowerQuery
   || Js.includes (Js.toLowerCase (Item.location item)) lowerQuery)%bool.

Definition searchItems (st : MemStorage) (query : string)
  (options : option SearchOptions) : list Item.t :=
  let items0 := Js.values (items st) in
  let items1 :=
    if negb (String.eqb query "")
    then
      let lowerQuery := Js.toLowerCase query in
      filter (matches_query lowerQuery) items0
    else items0 in
  let items2 :=
    match options with
    | None => items1
    | Some options =>
      let a :=
        if Js.truthy_string (s_status options)
        then filter (fun item =>
                       Js.strict_eq_string (Item.status item) (s_status options))
               items1
        else items1 in
      let b :=
        if Js.truthy_string (s_type options)
        then filter (fun item =>
                       Js.strict_eq_string (Item.type item) (s_type options))
               a
        else a in
      let c :=
        match s_date options with
        | Some d =>
          filter (fun item => toDateString (Item.date item) =? toDateString d) b
        | None => b
        end in
      if Js.truthy_string (s_location options)
      then filter (fun item =>
                     Js.includes (Js.toLowerCase (Item.location item))
                       (Js.toLowerCase (Js.non_null (s_location options)))) c
      else c
    end in
  Js.sort_desc Item.createdAt items2.
End Search.

(** ** Message methods *)

Definition getMessage (st : MemStorage) (id : Z) : option Message.t :=
  Js.get (messages st) id.

Definition getMessages (st : MemStorage) (userId : Z) : list Message.t :=
  Js.sort_desc Message.createdAt
    (filter (fun message =>
               (Message.toUserId message =? userId)
               || (Message.fromUserId message =? userId))%bool
       (Js.values (messages st))).

Definition getMessagesByItem (st : MemStorage) (itemId : Z) : list Message.t :=
  Js.sort_desc Message.createdAt
    (filter (fun message => Message.itemId message =? itemId)
       (Js.values (messages st))).

Definition createMessage (now : Z) (st : MemStorage)
  (insertMessage : InsertMessage.t) : Message.t * MemStorage :=
  let id := messageIdCounter st in
  let createdAt := now in
  let read := false in
  let message :=
    Message.mk id (InsertMessage.itemId insertMessage)
      (InsertMessage.fromUserId insertMessage)
      (InsertMessage.toUserId insertMessage)
      (InsertMessage.content insertMessage) read createdAt in
  (message,
   mkMemStorage (users st) (items st) (Js.set (messages st) id message)
     (userIdCounter st) (itemIdCounter st) (messageIdCounter st + 1)).

Definition markMessageAsRead (st : MemStorage) (id : Z) : bool * MemStorage :=
  match getMessage st id with
  | None => (false, st)
  | Some message =>
    (true, with_messages st (Js.set (messages st) id (set_read message)))
  end.

(* ------------------------------------------------------------------ *)
(** * Sequences of operations

    The operations that write to the store.  The read operations leave the
    store as it is and are not part of a history. *)

Inductive Op : Type :=
| CreateUser (now : Z) (insertUser : InsertUser.t)
| CreateItem (now : Z) (insertItem : InsertItem.t)
| UpdateItem (id : Z) (updateData : PartialItem.t)
| DeleteItem (id : Z)
| IncrementItemViews (id : Z)
| CreateMessage (now : Z) (insertMessage : InsertMessage.t)
| MarkMessageAsRead (id : Z).

Inductive Entity : Type := EUser | EItem | EMessage.

Definition Entity_eqb (a b : Entity) : bool :=
  match a, b with
  | EUser, EUser | EItem, EItem | EMessage, EMessage => true
  | _, _ => false
  end.

(** One operation: the store after it and, for a creation, the kind of the
    entity returned and the [id] it carries. *)
Definition step (st : MemStorage) (op : Op) : MemStorage * option (Entity * Z) :=
  match op with
  | CreateUser now u =>
    let (user, st') := createUser now st u in (st', Some (EUser, User.id user))
  | CreateItem now i =>
    let (item, st') := createItem now st i in (st', Some (EItem, Item.id item))
  | UpdateItem id p => (snd (updateItem st id p), None)
  | DeleteItem id => (snd (deleteItem st id), None)
  | IncrementItemViews id => (incrementItemViews st id, None)
  | CreateMessage now m =>
    let (message, st') := createMessage now st m in
    (st', Some (EMessage, Message.id message))
  | MarkMessageAsRead id => (snd (markMessageAsRead st id), None)
  end.

(** The store after a history. *)
Fixpoint run (st : MemStorage) (ops : list Op) : MemStorage :=
  match ops with
  | [] => st
  | op :: ops' => run (fst (step st op)) ops'
  end.

(** The identifiers a history assigns to the entities of one kind, in the
    order of their creation. *)
Fixpoint assigned (e : Entity) (st : MemStorage) (ops : list Op) : list Z :=
  match ops with
  | [] => []
  | op :: ops' =>
    let (st', r) := step st op in
    match r with
    | Some (e', id) =>
      if Entity_eqb e e' then id :: assigned e st' ops' else assigned e st' ops'
    | None => assigned e st' ops'
    end
  end.

(** [incrementItemViews] called [n] times in a row. *)
Fixpoint incrementItemViews_n (n : nat) (st : MemStorage) (id : Z) : MemStorage :=
  match n with
  | O => st
  | S n' => incrementItemViews_n n' (incrementItemViews st id) id
  end.

(** The counter that numbers the entities of a kind. *)
Definition counter (e : Entity) (st : MemStorage) : Z :=
  match e with
  | EUser => userIdCounter st
  | EItem => itemIdCounter st
  | EMessage => messageIdCounter st
  end.

(** The keys of the messages are below the message counter: what keeps
    [createMessage] from writing over a message. *)
Definition messages_below_counter (st : MemStorage) : Prop :=
  Forall (fun k => k < messageIdCounter st) (Js.keys (messages st)).

(* ------------------------------------------------------------------ *)
(** * What the store is to compute *)

(** ** Listing *)

(** The filters of [getItems] that are in force: [status] and [type] when
    they are given and not empty, [userId] when it is given. *)
Definition passes (o : GetItemsOptions) (item : Item.t) : bool :=
  ((if Js.truthy_string (g_status o)
    then Js.strict_eq_string (Item.status item) (g_status o) else true)
   && (if Js.truthy_string (g_type o)
       then Js.strict_eq_string (Item.type item) (g_type o) else true)
   && match g_userId o with
      | Some u => Js.strict_eq_num (Item.userId item) u
      | None => true
      end)%bool.

(** The page of a sorted result: from [offset] to [offset + limit],
    exclusive. *)
Definition page {A : Type} (l : list A) (offset limit : Z) : list A :=
  firstn (Z.to_nat limit) (skipn (Z.to_nat offset) l).

(** The filters of [getItems] read by the presence of the key alone. *)
Definition passes_supplied (o : GetItemsOptions) (item : Item.t) : bool :=
  (match g_status o with
   | Some s => String.eqb (Item.status item) s
   | None => true
   end
   && match g_type o with
      | Some s => String.eqb (Item.type item) s
      | None => true
      end
   && match g_userId o with
      | Some u => Js.strict_eq_num (Item.userId item) u
      | None => true
      end)%bool.

(** [getItems] as its description words it: every supplied filter applies,
    and a supplied limit pages the sorted result. *)
Definition getItems_spec (st : MemStorage) (options : option GetItemsOptions)
  : list Item.t :=
  match options with
  | None => Js.values (items st)
  | Some o =>
    let sorted :=
      Js.sort_desc Item.createdAt
        (filter (passes_supplied o) (Js.values (items st))) in
    match g_limit o with
    | Some (Js.Num limit) => page sorted (Js.or_zero (g_offset o)) limit
    | _ => sorted
    end
  end.

(** ** Search *)

(** [q] is a substring of [s]. *)
Definition substring_of (q s : string) : Prop :=
  exists a b : string, s = (a ++ q ++ b)%string.

(** [q] is a substring of [s], the case of letters not counting. *)
Definition ci_substring_of (q s : string) : Prop :=
  substring_of (Js.toLowerCase q) (Js.toLowerCase s).

Section SearchSpec.
Variable tzOffset : Z -> Z.

(** The filters of [searchItems] that are in force, all to hold at once. *)
Definition found (query : string) (options : option SearchOptions)
  (item : Item.t) : bool :=
  ((if String.eqb query "" then true
    else matches_query (Js.toLowerCase query) item)
   && match options with
      | None => true
      | Some o =>
        (if Js.truthy_string (s_status o)
         then Js.strict_eq_string (Item.status item) (s_status o) else true)
        && (if Js.truthy_string (s_type o)
            then Js.strict_eq_string (Item.type item) (s_type o) else true)
        && match s_date o with
           | Some d =>
             toDateString tzOffset (Item.date item) =? toDateString tzOffset d
           | None => true
           end
        && (if Js.truthy_string (s_location o)
            then Js.includes (Js.toLowerCase (Item.location item))
                   (Js.toLowerCase (Js.non_null (s_location o)))
            else true)
      end)%bool.

(** The filters of [searchItems] read by the presence of the key alone. *)
Definition found_supplied (query : string) (options : option SearchOptions)
  (item : Item.t) : bool :=
  ((if String.eqb query "" then true
    else matches_query (Js.toLowerCase query) item)
   && match options with
      | None => true
      | Some o =>
        match s_status o with
        | Some s => String.eqb (Item.status item) s
        | None => true
        end
        && match s_type o with
           | Some s => String.eqb (Item.type item) s
           | None => true
           end
        && match s_date o with
           | Some d =>
             toDateString tzOffset (Item.date item) =? toDateString tzOffset d
           | None => true
           end
        && match s_location o with
           | Some loc =>
             Js.includes (Js.toLowerCase (Item.location item)) (Js.toLowerCase loc)
           | None => true
           end
      end)%bool.

(** [searchItems] as its description words it. *)
Definition searchItems_spec (st : MemStorage) (query : string)
  (options : option SearchOptions) : list Item.t :=
  Js.sort_desc Item.createdAt
    (filter (found_supplied query options) (Js.values (items st))).
End SearchSpec.

(** ** Updates *)

(** A key of the merged item: the value of the update when the update has
    the key, the former value otherwise. *)
Definition merged_key {A : Type} (field : Item.t -> A)
  (key : PartialItem.t -> option A)
  (item : Item.t) (updateData : PartialItem.t) (merged : Item.t) : Prop :=
  match key updateData with
  | Some v => field merged = v
  | None => field merged = field item
  end.

(** Two items that agree on every field but [views]. *)
Definition same_but_views (a b : Item.t) : Prop :=
  Item.id a = Item.id b /\ Item.userId a = Item.userId b
  /\ Item.name a = Item.name b /\ Item.type a = Item.type b
  /\ Item.description a = Item.description b /\ Item.status a = Item.status b
  /\ Item.date a = Item.date b /\ Item.location a = Item.location b
  /\ Item.locationDetails a = Item.locationDetails b
  /\ Item.coordinates a = Item.coordinates b /\ Item.images a = Item.images b
  /\ Item.contactName a = Item.contactName b
  /\ Item.contactEmail a = Item.contactEmail b
  /\ Item.createdAt a = Item.createdAt b.

(** Two stores that agree on everything but their items. *)
Definition same_but_items (a b : MemStorage) : Prop :=
  users a = users b /\ messages a = messages b
  /\ userIdCounter a = userIdCounter b /\ itemIdCounter a = itemIdCounter b
  /\ messageIdCounter a = messageIdCounter b.

(** Two stores that agree on everything but their messages. *)
Definition same_but_messages (a b : MemStorage) : Prop :=
  users a = users b /\ items a = items b
  /\ userIdCounter a = userIdCounter b /\ itemIdCounter a = itemIdCounter b
  /\ messageIdCounter a = messageIdCounter b.

(* ------------------------------------------------------------------ *)
(** * A store to compute on: the sample data of [initDemoData] *)

Definition demoUser : InsertUser.t :=
  InsertUser.mk "demouser" "password" "demo@example.com" "Demo User".

(** The three sample items, for the user [userId], [now] being the time of
    the call. *)
Definition sampleItems (now : Z) (userId : Z) : list InsertItem.t :=
  [ InsertItem.mk (Js.Val userId) "Navy Blue Backpack" "Personal Items"
      "Lost my navy blue backpack with laptop inside near the lake area. Has my initials 'RJ' on the front pocket."
      "lost" (now - 2 * 24 * 60 * 60 * 1000) "India Gate, New Delhi"
      (Js.Val "Near the central lawn area"%string) (Js.Val (mkCoordinates 28612912 77229510))
      (Js.Val ["https://images.unsplash.com/photo-1611916066195-35falce0653e?w=500&q=80"%string])
      "Raj Sharma" "raj@example.com";
    InsertItem.mk (Js.Val userId) "Car Keys with Red Keychain" "Personal Items"
      "Found these keys at a table in Cafe Coffee Day. Maruti car keys with a distinctive red leather keychain."
      "found" (now - 1 * 24 * 60 * 60 * 1000) "MG Road, Bangalore"
      (Js.Val "Outside the mall entrance"%string) (Js.Val (mkCoordinates 12971600 77594600))
      (Js.Val ["https://images.unsplash.com/photo-1628815113969-0895b680d029?w=500&q=80"%string])
      "Priya Patel" "priya@example.com";
    InsertItem.mk (Js.Val userId) "iPad Pro with Black Case" "Electronics"
      "Left my iPad Pro on the metro around 5:30pm. Has a black leather case and my name on the lock screen."
      "lost" (now - 5 * 60 * 60 * 1000) "Rajiv Chowk Metro Station, Delhi"
      (Js.Val "Yellow Line platform"%string) (Js.Val (mkCoordinates 28633200 77219000))
      (Js.Val ["https://images.unsplash.com/photo-1583225214464-9296029427aa?w=500&q=80"%string])
      "Amit Kumar" "amit@example.com" ].

(** [initDemoData()] on a store, the clock reading [now + i] at the [i]-th
    creation. *)
Definition initDemoData (now : Z) (st : MemStorage) : MemStorage :=
  match getItems st None with
  | [] =>
    let (user, st1) := createUser now st demoUser in
    snd (fold_left
           (fun (acc : Z * MemStorage) itemData =>
              (fst acc + 1, snd (createItem (fst acc) (snd acc) itemData)))
           (sampleItems now (User.id user)) (now + 1, st1))
  | _ :: _ => st
  end.

(** The store of the examples below: the sample data at the time
    [1700000000000]. *)
Definition demo : MemStorage := initDemoData 1700000000000 constructor.

(** An item named A at X, updated with the location Y alone. *)
Definition itemAX : InsertItem.t :=
  InsertItem.mk Js.Undefined "A" "" "" "lost" 0 "X" Js.Undefined Js.Undefined
    Js.Undefined "" "".

Definition locationY : PartialItem.t :=
  PartialItem.mk None None None None None None None (Some "Y"%string) None None
    None None None None None.

Definition hello : InsertMessage.t := InsertMessage.mk 1 2 3 "Is it still there?".

(** Five items created one millisecond apart. *)
Definition five : MemStorage :=
  run constructor
    [CreateItem 10 itemAX; CreateItem 11 itemAX; CreateItem 12 itemAX;
     CreateItem 13 itemAX; CreateItem 14 itemAX].

Definition limit2offset1 : GetItemsOptions :=
  mkGetItemsOptions None None None (Some (Js.Num 2)) (Some (Js.Num 1)).

Definition limit0 : GetItemsOptions :=
  mkGetItemsOptions None None None (Some (Js.Num 0)) None.

Definition statusEmpty : GetItemsOptions :=
  mkGetItemsOptions (Some ""%string) None None None None.

(** The time zone of the examples: India, five hours and a half ahead. *)
Definition ist (t : Z) : Z := 19800000.

Definition inDelhi : SearchOptions :=
  mkSearchOptions None None None (Some "delhi"%string).

Definition searchStatusEmpty : SearchOptions :=
  mkSearchOptions (Some ""%string) None None None.

(** An update that carries [views] and [createdAt]. *)
Definition views99createdAt0 : PartialItem.t :=
  PartialItem.mk None None None None None None None None None None None None
    None (Some 99) (Some 0).

(* ------------------------------------------------------------------ *)
(** * The shape of a store that a history builds *)

(** The keys of a map are in increasing order, from 1 on and below the
    counter [c]. *)
Definition keys_in_order {V : Type} (m : Js.Map V) (c : Z) : Prop :=
  StronglySorted Z.lt (Js.keys m) /\ Forall (fun k => 1 <= k < c) (Js.keys m).

(** Every entry of a map is stored under the [id] it carries. *)
Definition keyed_by_id {V : Type} (id : V -> Z) (m : Js.Map V) : Prop :=
  Forall (fun entry => id (snd entry) = fst entry) m.

(** The counters are at least 1. *)
Definition counters_positive (st : MemStorage) : Prop :=
  1 <= userIdCounter st /\ 1 <= itemIdCounter st /\ 1 <= messageIdCounter st.

Definition well_formed (st : MemStorage) : Prop :=
  counters_positive st
  /\ keys_in_order (users st) (userIdCounter st)
  /\ keys_in_order (items st) (itemIdCounter st)
  /\ keys_in_order (messages st) (messageIdCounter st)
  /\ keyed_by_id User.id (users st)
  /\ keyed_by_id Message.id (messages st).

(** An operation that can take the item [id] away or write over its
    [views] or [createdAt]: its deletion, and an update of it. *)
Definition rewrites_item (id : Z) (op : Op) : bool :=
  match op with
  | UpdateItem id' _ => id' =? id
  | DeleteItem id' => id' =? id
  | _ => false
  end.

(** No operation of a history takes the item [id] away or updates it. *)
Definition never_rewrites (id : Z) (ops : list Op) : bool :=
  forallb (fun op => negb (rewrites_item id op)) ops.

(** The number of calls of [incrementItemViews] on [id] in a history. *)
Fixpoint increments (id : Z) (ops : list Op) : Z :=
  match ops with
  | [] => 0
  | IncrementItemViews id' :: ops' =>
    (if id' =? id then 1 else 0) + increments id ops'
  | _ :: ops' => increments id ops'
  end.

(** [a] is [b], or [b] with one more view. *)
Definition same_or_viewed (a b : Item.t) : Prop :=
  same_but_views a b
  /\ (Item.views a = Item.views b \/ Item.views a = Item.views b + 1).

(** Two messages that agree on every field but [read]. *)
Definition same_but_read (a b : Message.t) : Prop :=
  Message.id a = Message.id b /\ Message.itemId a = Message.itemId b
  /\ Message.fromUserId a = Message.fromUserId b
  /\ Message.toUserId a = Message.toUserId b
  /\ Message.content a = Message.content b
  /\ Message.createdAt a = Message.createdAt b.

(** The update of the keys of [p] then of the keys of [q]: the one update
    that does what the two do in a row. *)
Definition then_update (p q : PartialItem.t) : PartialItem.t :=
  let pick {A : Type} (a b : option A) : option A :=
    match b with
    | Some _ => b
    | None => a
    end in
  PartialItem.mk
    (pick (PartialItem.id p) (PartialItem.id q))
    (pick (PartialItem.userId p) (PartialItem.userId q))
    (pick (PartialItem.name p) (PartialItem.name q))
    (pick (PartialItem.type p) (PartialItem.type q))
    (pick (PartialItem.description p) (PartialItem.description q))
    (pick (PartialItem.status p) (PartialItem.status q))
    (pick (PartialItem.date p) (PartialItem.date q))
    (pick (PartialItem.location p) (PartialItem.location q))
    (pick (PartialItem.locationDetails p) (PartialItem.locationDetails q))
    (pick (PartialItem.coordinates p) (PartialItem.coordinates q))
    (pick (PartialItem.images p) (PartialItem.images q))
    (pick (PartialItem.contactName p) (PartialItem.contactName q))
    (pick (PartialItem.contactEmail p) (PartialItem.contactEmail q))
    (pick (PartialItem.views p) (PartialItem.views q))
    (pick (PartialItem.createdAt p) (PartialItem.createdAt q)).

(* ------------------------------------------------------------------ *)
(** * The HTTP layer ([server/routes.ts])

    The handlers of [registerRoutes] that call the store with values the
    model has: a handler takes the strings of the request it reads and the
    store, and returns the response and the store after it.  A parameter
    of the path or of the query is a string.  The handlers that read
    uploaded files, floating point coordinates or date strings are left out,
    and so is the choice of the handler for a request, which is Express's. *)

Module Http.

(** [const { password, ...userWithoutPassword } = user] *)
Record UserWithoutPassword : Type := mkUserWithoutPassword {
  u_id : Z;
  u_username : string;
  u_email : string;
  u_name : string;
  u_createdAt : Z
}.

Definition withoutPassword (user : User.t) : UserWithoutPassword :=
  mkUserWithoutPassword (User.id user) (User.username user) (User.email user)
    (User.name user) (User.createdAt user).

(** What a response carries. *)
Inductive Body : Type :=
| JsonItem (item : option Item.t)
| JsonItems (items : list Item.t)
| JsonUser (user : UserWithoutPassword)
| JsonMessage (message : Message.t)
| JsonMessages (messages : list Message.t)
| JsonError (message : string)
| NoBody.

Record Response : Type := mkResponse {
  status : Z;
  body : Body
}.

(** Modelled from the spec: the result of [insertUserSchema.parse] and of
    [insertMessageSchema.parse] of [@shared/schema] on the body of a
    request, either the validated data or a [ZodError], of which
    [handleError] sends the message that [fromZodError] gives. *)
Inductive Parse (A : Type) : Type :=
| Parsed (data : A)
| ZodError (validationMessage : string).
Arguments Parsed {A} _.
Arguments ZodError {A} _.

(** [app.get("/api/items", ...)]: the query parameters are strings, and
    absent ([None]) when the request does not have them. *)
Definition get_api_items (st : MemStorage)
  (status type limit offset : option string) : Response :=
  let limit :=
    match limit with
    | Some s => Js.parseInt s
    | None => Js.Num 10
    end in
  let offset :=
    match offset with
    | Some s => Js.parseInt s
    | None => Js.Num 0
    end in
  let options :=
    mkGetItemsOptions
      (if Js.truthy_string status then status else None)
      (if Js.truthy_string type then type else None)
      None (Some limit) (Some offset) in
  mkResponse 200 (JsonItems (getItems st (Some options))).

(** [app.get("/api/items/:id", ...)] *)
Definition get_api_items_id (st : MemStorage) (id : string)
  : Response * MemStorage :=
  match Js.on_number (Js.parseInt id) None (getItem st) with
  | None => (mkResponse 404 (JsonError "Item not found"), st)
  | Some item =>
    let st' := incrementItemViews st (Item.id item) in
    let updatedItem := Js.on_number (Js.parseInt id) None (getItem st') in
    (mkResponse 200 (JsonItem updatedItem), st')
  end.

(** [app.delete("/api/items/:id", ...)] *)
Definition delete_api_items_id (st : MemStorage) (id : string)
  : Response * MemStorage :=
  let (success, st') :=
    Js.on_number (Js.parseInt id) (false, st) (deleteItem st) in
  if negb success
  then (mkResponse 404 (JsonError "Item not found"), st')
  else (mkResponse 204 NoBody, st').

(** [app.post("/api/users", ...)], [userData] being the outcome of
    [insertUserSchema.parse(req.body)]. *)
Definition post_api_users (now : Z) (st : MemStorage)
  (userData : Parse InsertUser.t) : Response * MemStorage :=
  match userData with
  | ZodError validationMessage =>
    (mkResponse 400 (JsonError validationMessage), st)
  | Parsed userData =>
    match getUserByEmail st (InsertUser.email userData) with
    | Some existingUser =>
      (mkResponse 409 (JsonError "User with this email already exists"), st)
    | None =>
      let (user, st') := createUser now st userData in
      (mkResponse 201 (JsonUser (withoutPassword user)), st')
    end
  end.

(** [app.get("/api/messages", ...)]: [parseInt] of a parameter that is not
    there is [parseInt("undefined")]. *)
Definition get_api_messages (st : MemStorage) (userId : option string)
  : Response :=
  let userId :=
    match userId with
    | Some s => Js.parseInt s
    | None => Js.NaN
    end in
  if Js.falsy_number userId
  then mkResponse 400 (JsonError "userId query parameter is required")
  else mkResponse 200 (JsonMessages (Js.on_number userId [] (getMessages st))).



(** [app.patch("/api/messages/:id/read", ...)] *)
Definition patch_api_messages_id_read (st : MemStorage) (id : string)
  : Response * MemStorage :=
  let (success, st') :=
    Js.on_number (Js.parseInt id) (false, st) (markMessageAsRead st) in
  if negb success
  then (mkResponse 404 (JsonError "Message not found"), st')
  else (mkResponse 204 NoBody, st').

End Http.

(** The addresses of the users, in the order of the map. *)
Definition emails (st : MemStorage) : list string :=
  map User.email (Js.values (users st)).

(* ------------------------------------------------------------------ *)
(** * Facts about the runtime *)

(** ** Maps *)

Section MapFacts.
Context {V : Type}.
Implicit Types (m : Js.Map V) (k : Z) (v : V).

Lemma get_set_same m k v : Js.get (Js.set m k v) k = Some v.
Proof.
  induction m as [|[k' v'] m IH]; simpl.
  - now rewrite Z.eqb_refl.
  - destruct (k' =? k) eqn:E; simpl.
    + now rewrite Z.eqb_refl.
    + now rewrite E.
Qed.

Lemma get_set_other m k k' v : k' <> k -> Js.get (Js.set m k v) k' = Js.get m k'.
Proof.
  intros Hne.
  induction m as [|[k0 v0] m IH]; simpl.
  - destruct (k =? k') eqn:E; [apply Z.eqb_eq in E; congruence | reflexivity].
  - destruct (k0 =? k) eqn:E; simpl.
    + apply Z.eqb_eq in E; subst k0.
      destruct (k =? k') eqn:E'; [apply Z.eqb_eq in E'; congruence | reflexivity].
    + destruct (k0 =? k'); [reflexivity | exact IH].
Qed.

Lemma get_remove_same m k : Js.get (Js.remove m k) k = None.
Proof.
  induction m as [|[k' v'] m IH]; simpl; [reflexivity|].
  destruct (k' =? k) eqn:E; simpl; [exact IH | now rewrite E].
Qed.

Lemma get_remove_other m k k' : k' <> k -> Js.get (Js.remove m k) k' = Js.get m k'.
Proof.
  intros Hne.
  induction m as [|[k0 v0] m IH]; simpl; [reflexivity|].
  destruct (k0 =? k) eqn:E; simpl.
  - apply Z.eqb_eq in E; subst k0.
    destruct (k =? k') eqn:E'; [apply Z.eqb_eq in E'; congruence | exact IH].
  - destruct (k0 =? k'); [reflexivity | exact IH].
Qed.

Lemma get_None_iff m k : Js.get m k = None <-> ~ In k (Js.keys m).
Proof.
  induction m as [|[k' v'] m IH]; simpl.
  - tauto.
  - destruct (k' =? k) eqn:E.
    + apply Z.eqb_eq in E. split; [discriminate | tauto].
    + apply Z.eqb_neq in E. rewrite IH. tauto.
Qed.

Lemma get_Some_In m k v : Js.get m k = Some v -> In v (Js.values m).
Proof.
  induction m as [|[k' v'] m IH]; simpl; [discriminate|].
  destruct (k' =? k); [intros [= ->]; now left | right; auto].
Qed.

Lemma remove_absent m k : Js.get m k = None -> Js.remove m k = m.
Proof.
  induction m as [|[k' v'] m IH]; simpl; [reflexivity|].
  destruct (k' =? k); [discriminate | intros H; now rewrite IH].
Qed.

Lemma keys_set_present m k v v0 :
  Js.get m k = Some v0 -> Js.keys (Js.set m k v) = Js.keys m.
Proof.
  induction m as [|[k' v'] m IH]; simpl; [discriminate|].
  destruct (k' =? k) eqn:E; simpl.
  - apply Z.eqb_eq in E. now subst.
  - intros H. now rewrite (IH H).
Qed.

Lemma keys_set_absent m k v :
  Js.get m k = None -> Js.keys (Js.set m k v) = Js.keys m ++ [k].
Proof.
  induction m as [|[k' v'] m IH]; simpl; [reflexivity|].
  destruct (k' =? k); [discriminate | intros H; simpl; now rewrite (IH H)].
Qed.
End MapFacts.

(** ** Sorting *)

Section SortFacts.
Context {A : Type} (key : A -> Z).

Lemma insert_desc_perm (x : A) (l : list A) :
  Permutation (Js.insert_desc key x l) (x :: l).
Proof.
  induction l as [|y l IH]; simpl; [reflexivity|].
  destruct (key x <? key y); [|reflexivity].
  rewrite IH. apply perm_swap.
Qed.

Lemma sort_desc_perm (l : list A) : Permutation (Js.sort_desc key l) l.
Proof.
  induction l as [|x l IH]; simpl; [reflexivity|].
  rewrite insert_desc_perm. now constructor.
Qed.

Lemma insert_desc_sorted (x : A) (l : list A) :
  StronglySorted (Js.desc key) l ->
  StronglySorted (Js.desc key) (Js.insert_desc key x l).
Proof.
  induction 1 as [|y l Hs IH Hall]; simpl.
  - repeat constructor.
  - destruct (key x <? key y) eqn:E.
    + constructor; [exact IH|].
      apply Z.ltb_lt in E. rewrite Forall_forall in *.
      intros z Hz. apply (Permutation_in _ (insert_desc_perm x l)) in Hz.
      destruct Hz as [<- | Hz]; [unfold Js.desc; lia | now apply Hall].
    + apply Z.ltb_ge in E.
      constructor; [now constructor|].
      constructor; [exact E|].
      eapply Forall_impl; [|exact Hall].
      unfold Js.desc. intros; lia.
Qed.

Lemma sort_desc_sorted (l : list A) :
  StronglySorted (Js.desc key) (Js.sort_desc key l).
Proof.
  induction l as [|x l IH]; simpl; [constructor | now apply insert_desc_sorted].
Qed.

(** The sort is stable: the elements of one key keep their order. *)
Lemma insert_desc_stable (k : Z) (x : A) (l : list A) :
  filter (fun y => key y =? k) (Js.insert_desc key x l)
  = filter (fun y => key y =? k) (x :: l).
Proof.
  induction l as [|y l IH]; [reflexivity|].
  simpl Js.insert_desc.
  destruct (key x <? key y) eqn:E; [|reflexivity].
  apply Z.ltb_lt in E.
  simpl in *. rewrite IH.
  destruct (key x =? k) eqn:Ex; [|reflexivity].
  apply Z.eqb_eq in Ex.
  destruct (key y =? k) eqn:Ey; [apply Z.eqb_eq in Ey; lia | reflexivity].
Qed.

Lemma sort_desc_stable (k : Z) (l : list A) :
  filter (fun y => key y =? k) (Js.sort_desc key l)
  = filter (fun y => key y =? k) l.
Proof.
  induction l as [|x l IH]; [reflexivity|].
  simpl Js.sort_desc. rewrite insert_desc_stable. simpl. now rewrite IH.
Qed.

Lemma sort_desc_In (l : list A) (x : A) : In x (Js.sort_desc key l) <-> In x l.
Proof.
  split; apply Permutation_in; [|symmetry]; apply sort_desc_perm.
Qed.
End SortFacts.

(** ** Strings *)

Lemma startsWith_spec (s q : string) :
  Js.startsWith s q = true <-> exists b : string, s = (q ++ b)%string.
Proof.
  revert s. induction q as [|c q IH]; intros s.
  - destruct s; (split; [intros _; eexists; reflexivity | reflexivity]).
  - destruct s as [|a s]; cbn [Js.startsWith].
    + split; [discriminate | intros [b Hb]; discriminate].
    + rewrite andb_true_iff, IH. split.
      * intros [Hc [b ->]]. apply Ascii.eqb_eq in Hc. subst. now exists b.
      * intros [b [= -> ->]]. split; [apply Ascii.eqb_refl | now exists b].
Qed.

Lemma includes_spec (s q : string) :
  Js.includes s q = true <-> substring_of q s.
Proof.
  unfold substring_of.
  induction s as [|c s IH].
  - cbn [Js.includes]. rewrite orb_false_r, startsWith_spec. split.
    + intros [b ->]. now exists ""%string, b.
    + intros [a [b H]]. destruct a; [now exists b | discriminate].
  - cbn [Js.includes]. rewrite orb_true_iff, startsWith_spec, IH. split.
    + intros [[b ->] | [a [b ->]]].
      * now exists ""%string, b.
      * now exists (String c a), b.
    + intros [a [b H]]. destruct a as [|c' a].
      * left. now exists b.
      * right. injection H as -> ->. now exists a, b.
Qed.

Lemma includes_empty (s : string) : Js.includes s "" = true.
Proof. destruct s; reflexivity. Qed.

(** ** Slices *)

Lemma slice_page {A : Type} (l : list A) (offset limit : Z) :
  0 <= offset -> 0 <= limit ->
  Js.slice l offset (offset + limit) = page l offset limit.
Proof.
  intros Ho Hl. unfold Js.slice, page, Js.rel_index.
  set (len := Z.of_nat (List.length l)).
  assert (Hlen : 0 <= len) by (unfold len; lia).
  destruct (offset <? 0) eqn:E1; [apply Z.ltb_lt in E1; lia|].
  destruct (offset + limit <? 0) eqn:E2; [apply Z.ltb_lt in E2; lia|].
  destruct (Z.le_gt_cases len offset) as [Hge|Hlt].
  - rewrite Z.min_r by lia.
    rewrite !skipn_all2 by lia. now rewrite !firstn_nil.
  - rewrite (Z.min_l offset) by lia.
    destruct (Z.le_gt_cases (offset + limit) len) as [Hin|Hout].
    + rewrite Z.min_l by lia. f_equal. lia.
    + rewrite Z.min_r by lia.
      rewrite !firstn_all2; [reflexivity | |]; rewrite length_skipn; lia.
Qed.

Lemma slice_out_of_range {A : Type} (l : list A) (start stop : Z) :
  Z.of_nat (List.length l) <= start -> Js.slice l start stop = [].
Proof.
  intros H. unfold Js.slice, Js.rel_index.
  destruct (start <? 0) eqn:E1; [apply Z.ltb_lt in E1; lia|].
  rewrite (Z.min_r start) by lia.
  rewrite skipn_all2 by lia. apply firstn_nil.
Qed.

(** ** Filters *)

Lemma filter_filter {A : Type} (f g : A -> bool) (l : list A) :
  filter f (filter g l) = filter (fun x => (g x && f x)%bool) l.
Proof.
  induction l as [|x l IH]; simpl; [reflexivity|].
  destruct (g x); simpl; [destruct (f x)|]; now rewrite IH.
Qed.

Lemma filter_true {A : Type} (l : list A) : filter (fun _ => true) l = l.
Proof. induction l as [|x l IH]; simpl; [reflexivity | now rewrite IH]. Qed.

Lemma set_get_same {V : Type} (m : Js.Map V) (k : Z) (v : V) :
  Js.get m k = Some v -> Js.set m k v = m.
Proof.
  induction m as [|[k' v'] m IH]; simpl; [discriminate|].
  destruct (k' =? k) eqn:E.
  - apply Z.eqb_eq in E. now intros [= ->]; subst.
  - intros H. now rewrite (IH H).
Qed.

Lemma find_None_iff {A : Type} (p : A -> bool) (l : list A) :
  Js.find p l = None <-> forall x, In x l -> p x = false.
Proof.
  unfold Js.find. split; [apply find_none|].
  induction l as [|x l IH]; simpl; [reflexivity|].
  intros H. rewrite (H x (or_introl eq_refl)). apply IH. auto.
Qed.

(* ------------------------------------------------------------------ *)
(** * The store: reads, deletion, update, creation, views *)

Lemma with_items_same (st : MemStorage) : with_items st (items st) = st.
Proof. now destruct st. Qed.

Lemma with_messages_same (st : MemStorage) : with_messages st (messages st) = st.
Proof. now destruct st. Qed.

(** C9.  A read that matches nothing returns the absent value: [getUser],
    [getItem] and [getMessage] return it exactly when the key is not in the
    map, [getUserByUsername] and [getUserByEmail] exactly when no user has the
    name or the address.  [deleteItem] returns [true] exactly when an item
    with the id existed; the item is gone afterwards and the others stay; on
    a missing id it returns [false] and the store is as before. *)
Theorem reads_absent_and_deleteItem_bool (st : MemStorage) (id : Z) :
  (getUser st id = None <-> ~ In id (Js.keys (users st)))
  /\ (getItem st id = None <-> ~ In id (Js.keys (items st)))
  /\ (getMessage st id = None <-> ~ In id (Js.keys (messages st)))
  /\ (forall username : string,
        getUserByUsername st username = None
        <-> forall u, In u (Js.values (users st)) -> User.username u <> username)
  /\ (forall email : string,
        getUserByEmail st email = None
        <-> forall u, In u (Js.values (users st)) -> User.email u <> email)
  /\ (fst (deleteItem st id) = true <-> exists item, getItem st id = Some item)
  /\ (fst (deleteItem st id) = false <-> getItem st id = None)
  /\ getItem (snd (deleteItem st id)) id = None
  /\ (forall id', id' <> id ->
        getItem (snd (deleteItem st id)) id' = getItem st id')
  /\ same_but_items (snd (deleteItem st id)) st
  /\ (fst (deleteItem st id) = false -> snd (deleteItem st id) = st).
Proof.
  assert (Hdel : deleteItem st id
                 = (Js.has (items st) id,
                    with_items st (Js.remove (items st) id))) by reflexivity.
  rewrite Hdel. cbn [fst snd]. clear Hdel.
  unfold getUser, getItem, getMessage, getUserByUsername, getUserByEmail.
  cbn [with_items items]. unfold Js.has.
  split; [apply get_None_iff|].
  split; [apply get_None_iff|].
  split; [apply get_None_iff|].
  split.
  { intros username. rewrite find_None_iff.
    split; intros H u Hu; apply String.eqb_neq; auto. }
  split.
  { intros email. rewrite find_None_iff.
    split; intros H u Hu; apply String.eqb_neq; auto. }
  split.
  { destruct (Js.get (items st) id) as [item|].
    - split; eauto.
    - split; [discriminate | intros [item H]; discriminate]. }
  split.
  { destruct (Js.get (items st) id); split; congruence. }
  split; [apply get_remove_same|].
  split; [intros id' Hne; now apply get_remove_other|].
  split; [now destruct st|].
  destruct (Js.get (items st) id) eqn:E; [discriminate|].
  intros _. rewrite (remove_absent _ _ E). apply with_items_same.
Qed.

(** On the sample data, the deletion of an id that is not there answers
    [false] and changes nothing. *)
Lemma reads_absent_and_deleteItem_bool_witness :
  fst (deleteItem demo 7) = false /\ snd (deleteItem demo 7) = demo.
Proof.
  split; [reflexivity|].
  apply (proj2 (proj2 (proj2 (proj2 (proj2 (proj2 (proj2 (proj2 (proj2 (proj2
    (reads_absent_and_deleteItem_bool demo 7))))))))))).
  reflexivity.
Defined.

(** C4.  [updateItem] on an id that is not there returns the absent value
    and leaves the store as it is.  On an id that is there it returns the
    merge of the update onto the item: each key of the update replaces the
    key of the item, each key the update lacks keeps its value; the merged
    item is stored under the id, in the place of the former one, and nothing
    else in the store changes. *)
Theorem updateItem_merges (st : MemStorage) (id : Z) (updateData : PartialItem.t) :
  match getItem st id with
  | None => updateItem st id updateData = (None, st)
  | Some item =>
    exists (merged : Item.t) (st' : MemStorage),
      updateItem st id updateData = (Some merged, st')
      /\ getItem st' id = Some merged
      /\ merged_key Item.id PartialItem.id item updateData merged
      /\ merged_key Item.userId PartialItem.userId item updateData merged
      /\ merged_key Item.name PartialItem.name item updateData merged
      /\ merged_key Item.type PartialItem.type item updateData merged
      /\ merged_key Item.description PartialItem.description item updateData merged
      /\ merged_key Item.status PartialItem.status item updateData merged
      /\ merged_key Item.date PartialItem.date item updateData merged
      /\ merged_key Item.location PartialItem.location item updateData merged
      /\ merged_key Item.locationDetails PartialItem.locationDetails item updateData merged
      /\ merged_key Item.coordinates PartialItem.coordinates item updateData merged
      /\ merged_key Item.images PartialItem.images item updateData merged
      /\ merged_key Item.contactName PartialItem.contactName item updateData merged
      /\ merged_key Item.contactEmail PartialItem.contactEmail item updateData merged
      /\ merged_key Item.views PartialItem.views item updateData merged
      /\ merged_key Item.createdAt PartialItem.createdAt item updateData merged
      /\ (forall id', id' <> id -> getItem st' id' = getItem st id')
      /\ Js.keys (items st') = Js.keys (items st)
      /\ same_but_items st' st
  end.
Proof.
  unfold updateItem.
  destruct (getItem st id) as [item|] eqn:E; [|reflexivity].
  eexists _, _. split; [reflexivity|].
  unfold getItem in *. cbn [with_items items].
  split; [apply get_set_same|].
  repeat (split;
          [ solve [ unfold merged_key, spread;
                    match goal with
                    | |- match ?o with _ => _ end => destruct o
                    end; reflexivity ] | ]).
  split; [intros id' Hne; now apply get_set_other|].
  split; [now apply keys_set_present with (v0 := item)|].
  now destruct st.
Qed.

Lemma updateItem_merges_witness :
  exists merged : Item.t,
    fst (updateItem (snd (createItem 5 constructor itemAX)) 1 locationY)
    = Some merged
    /\ Item.name merged = "A"%string /\ Item.location merged = "Y"%string.
Proof.
  pose proof (updateItem_merges (snd (createItem 5 constructor itemAX)) 1
                locationY) as H.
  cbn in H.
  destruct H as (merged & st' & Hu & _ & _ & _ & Hname & _ & _ & _ & _ & Hloc & _).
  exists merged. split; [exact (f_equal fst Hu)|]. split; assumption.
Defined.

(** C5.  [createItem] returns an item that carries the next sequential id
    (the value of the item counter, which then advances by one), the time of
    the call as [createdAt] and [views] at 0.  [images] and [locationDetails]
    are [null] when the input omits them and are never [undefined]: [images]
    is the array of the input when there is one, [locationDetails] the string
    of the input when there is one that is not empty.  Every other field is
    the field of the input.  The item is stored: [getItem] on its id returns
    it. *)
Theorem createItem_assigns (now : Z) (st : MemStorage) (insertItem : InsertItem.t) :
  let item := fst (createItem now st insertItem) in
  let st' := snd (createItem now st insertItem) in
  Item.id item = itemIdCounter st
  /\ itemIdCounter st' = itemIdCounter st + 1
  /\ Item.createdAt item = now
  /\ Item.views item = 0
  /\ (InsertItem.images insertItem = Js.Undefined -> Item.images item = Js.Null)
  /\ (InsertItem.locationDetails insertItem = Js.Undefined ->
      Item.locationDetails item = Js.Null)
  /\ Item.images item <> Js.Undefined
  /\ Item.locationDetails item <> Js.Undefined
  /\ (forall l, InsertItem.images insertItem = Js.Val l ->
                Item.images item = Js.Val l)
  /\ (forall s, InsertItem.locationDetails insertItem = Js.Val s ->
                s <> ""%string -> Item.locationDetails item = Js.Val s)
  /\ Item.userId item = InsertItem.userId insertItem
  /\ Item.name item = InsertItem.name insertItem
  /\ Item.type item = InsertItem.type insertItem
  /\ Item.description item = InsertItem.description insertItem
  /\ Item.status item = InsertItem.status insertItem
  /\ Item.date item = InsertItem.date insertItem
  /\ Item.location item = InsertItem.location insertItem
  /\ Item.coordinates item = InsertItem.coordinates insertItem
  /\ Item.contactName item = InsertItem.contactName insertItem
  /\ Item.contactEmail item = InsertItem.contactEmail insertItem
  /\ getItem st' (Item.id item) = Some item
  /\ (forall id', id' <> Item.id item -> getItem st' id' = getItem st id')
  /\ users st' = users st /\ messages st' = messages st.
Proof.
  cbn.
  split; [reflexivity|]. split; [reflexivity|].
  split; [reflexivity|]. split; [reflexivity|].
  split; [now intros ->|]. split; [now intros ->|].
  split; [now destruct (InsertItem.images insertItem)|].
  split.
  { destruct (InsertItem.locationDetails insertItem) as [| |s]; cbn;
      try discriminate.
    now destruct (String.eqb s ""). }
  split; [now intros l ->|].
  split.
  { intros s -> Hs. cbn. apply String.eqb_neq in Hs. now rewrite Hs. }
  repeat (split; [reflexivity|]).
  split; [unfold getItem; cbn; apply get_set_same|].
  split; [intros id' Hne; unfold getItem; cbn; now apply get_set_other|].
  split; reflexivity.
Qed.

(** On an empty store, an item that omits [images] and [locationDetails] is
    created under the id 1 with both at [null], and is read back. *)
Lemma createItem_assigns_witness :
  InsertItem.images itemAX = Js.Undefined
  /\ Item.images (fst (createItem 5 constructor itemAX)) = Js.Null
  /\ Item.locationDetails (fst (createItem 5 constructor itemAX)) = Js.Null
  /\ getItem (snd (createItem 5 constructor itemAX)) 1
     = Some (fst (createItem 5 constructor itemAX)).
Proof.
  destruct (createItem_assigns 5 constructor itemAX)
    as (_ & _ & _ & _ & Hi & Hl & _ & _ & _ & _ & _ & _ & _ & _ & _ & _ & _
        & _ & _ & _ & Hg & _).
  split; [reflexivity|].
  split; [apply Hi; reflexivity|].
  split; [apply Hl; reflexivity|].
  exact Hg.
Defined.

Lemma same_but_views_refl (item : Item.t) : same_but_views item item.
Proof. unfold same_but_views. repeat split. Qed.

Lemma same_but_views_add_view (item item0 : Item.t) :
  same_but_views item item0 -> same_but_views (add_view item) item0.
Proof. unfold same_but_views. now destruct item. Qed.

Lemma incrementItemViews_get (st : MemStorage) (id : Z) (item : Item.t) :
  getItem st id = Some item ->
  getItem (incrementItemViews st id) id = Some (add_view item).
Proof.
  unfold incrementItemViews. intros ->. unfold getItem. cbn.
  apply get_set_same.
Qed.

Lemma incrementItemViews_n_get (n : nat) :
  forall (st : MemStorage) (id : Z) (item : Item.t),
    getItem st id = Some item ->
    exists item',
      getItem (incrementItemViews_n n st id) id = Some item'
      /\ Item.views item' = Item.views item + Z.of_nat n
      /\ same_but_views item' item.
Proof.
  induction n as [|n IH]; intros st id item H.
  - exists item. cbn [incrementItemViews_n].
    split; [exact H|]. split; [lia | apply same_but_views_refl].
  - cbn [incrementItemViews_n].
    destruct (IH _ _ _ (incrementItemViews_get st id item H))
      as (item' & Hg & Hv & Hs).
    exists item'. split; [exact Hg|]. split.
    + rewrite Hv. cbn [add_view Item.views]. lia.
    + unfold same_but_views in *. cbn in Hs. exact Hs.
Qed.

(** C6.  [incrementItemViews] on an item that is there adds exactly one to
    its [views] and leaves its other fields, the other items, the place of
    the item and the rest of the store as they were; so [n] calls in a row on
    an item whose [views] is 0 leave [views] at [n].  On an id that is not
    there it leaves the whole store as it was. *)
Theorem incrementItemViews_adds_one (st : MemStorage) (id : Z) :
  (forall item, getItem st id = Some item ->
     exists item',
       getItem (incrementItemViews st id) id = Some item'
       /\ Item.views item' = Item.views item + 1
       /\ same_but_views item' item)
  /\ (forall id', id' <> id ->
        getItem (incrementItemViews st id) id' = getItem st id')
  /\ Js.keys (items (incrementItemViews st id)) = Js.keys (items st)
  /\ same_but_items (incrementItemViews st id) st
  /\ (forall (n : nat) item,
        getItem st id = Some item -> Item.views item = 0 ->
        exists item',
          getItem (incrementItemViews_n n st id) id = Some item'
          /\ Item.views item' = Z.of_nat n
          /\ same_but_views item' item)
  /\ (getItem st id = None -> incrementItemViews st id = st).
Proof.
  split.
  { intros item H. exists (add_view item).
    split; [now apply incrementItemViews_get|].
    split; [reflexivity|].
    apply same_but_views_add_view, same_but_views_refl. }
  split.
  { intros id' Hne. unfold incrementItemViews.
    destruct (getItem st id); [|reflexivity].
    unfold getItem. cbn. now apply get_set_other. }
  split.
  { unfold incrementItemViews.
    destruct (getItem st id) as [item|] eqn:E; [|reflexivity].
    cbn. now apply keys_set_present with (v0 := item). }
  split.
  { unfold incrementItemViews, same_but_items.
    destruct (getItem st id); destruct st; cbn; repeat split. }
  split.
  { intros n item H Hv.
    destruct (incrementItemViews_n_get n st id item H) as (item' & Hg & Hn & Hs).
    exists item'. split; [exact Hg|]. split; [lia | exact Hs]. }
  unfold incrementItemViews. now intros ->.
Qed.

(** Three views of the first sample item, which starts at 0, leave it at
    3; a view of an id that is not there changes nothing. *)
Lemma incrementItemViews_adds_one_witness :
  (exists item',
     getItem (incrementItemViews_n 3 demo 1) 1 = Some item'
     /\ Item.views item' = 3)
  /\ incrementItemViews demo 7 = demo.
Proof.
  destruct (incrementItemViews_adds_one demo 1) as (_ & _ & _ & _ & Hn & _).
  destruct (incrementItemViews_adds_one demo 7) as (_ & _ & _ & _ & _ & Hm).
  split.
  - destruct (getItem demo 1) as [item|] eqn:E; [|discriminate E].
    destruct (Hn 3%nat item eq_refl) as (item' & Hg & Hv & _).
    + injection E as <-. reflexivity.
    + exists item'. split; assumption.
  - apply Hm. reflexivity.
Defined.

(* ------------------------------------------------------------------ *)
(** * Histories: identifiers and the [read] flag *)

Lemma step_counter_mono (e : Entity) (st : MemStorage) (op : Op) :
  counter e st <= counter e (fst (step st op)).
Proof.
  destruct op, e; cbn;
    repeat match goal with
           | |- context [updateItem ?s ?i ?p] =>
             unfold updateItem; destruct (getItem s i); cbn
           | |- context [incrementItemViews ?s ?i] =>
             unfold incrementItemViews; destruct (getItem s i); cbn
           | |- context [markMessageAsRead ?s ?i] =>
             unfold markMessageAsRead; destruct (getMessage s i); cbn
           end; lia.
Qed.

Lemma step_assigns_counter (e : Entity) (st : MemStorage) (op : Op) (id : Z) :
  snd (step st op) = Some (e, id) ->
  id = counter e st /\ counter e (fst (step st op)) = id + 1.
Proof.
  destruct op; cbn; try discriminate; intros [= <- <-]; cbn; auto.
Qed.

Lemma assigned_from_counter (e : Entity) (ops : list Op) :
  forall st : MemStorage,
    Forall (fun id => counter e st <= id) (assigned e st ops)
    /\ StronglySorted Z.lt (assigned e st ops).
Proof.
  induction ops as [|op ops IH]; intros st; cbn [assigned].
  - split; constructor.
  - pose proof (step_counter_mono e st op) as Hmono.
    pose proof (step_assigns_counter e st op) as Hid.
    destruct (step st op) as [st' r]. cbn [fst snd] in *.
    destruct (IH st') as [Hall Hsorted].
    assert (Hall' : Forall (fun id => counter e st <= id) (assigned e st' ops)).
    { eapply Forall_impl; [|exact Hall]. cbn. intros; lia. }
    destruct r as [[e' id]|]; [|now split].
    destruct (Entity_eqb e e') eqn:E; [|now split].
    assert (e' = e) by (destruct e, e'; cbn in E; congruence). subst e'.
    destruct (Hid id eq_refl) as [-> Hnext].
    split.
    + constructor; [lia | exact Hall'].
    + constructor; [exact Hsorted|].
      eapply Forall_impl; [|exact Hall]. cbn. intros; lia.
Qed.

Lemma StronglySorted_lt_NoDup (l : list Z) : StronglySorted Z.lt l -> NoDup l.
Proof.
  induction 1 as [|x l Hs IH Hall]; constructor; [|exact IH].
  intros Hin. rewrite Forall_forall in Hall. specialize (Hall x Hin). lia.
Qed.

(** C3.  From any state of the store and for any sequence of its writing
    operations (creations, deletions and the others), the identifiers given
    to the created entities of one kind are strictly increasing in the order
    of creation, so none is given twice, and each is at least the counter of
    the start: an identifier freed by a deletion is not given again. *)
Theorem assigned_ids_strictly_increasing (e : Entity) (st : MemStorage)
  (ops : list Op) :
  StronglySorted Z.lt (assigned e st ops)
  /\ NoDup (assigned e st ops)
  /\ Forall (fun id => counter e st <= id) (assigned e st ops).
Proof.
  destruct (assigned_from_counter e ops st) as [Hall Hsorted].
  split; [exact Hsorted|].
  split; [now apply StronglySorted_lt_NoDup | exact Hall].
Qed.

(** An item is created, deleted, and another is created: the second gets
    the id 2, not the freed id 1. *)
Lemma assigned_ids_strictly_increasing_witness :
  assigned EItem constructor [CreateItem 5 itemAX; DeleteItem 1; CreateItem 6 itemAX]
  = [1; 2]
  /\ NoDup (assigned EItem constructor
              [CreateItem 5 itemAX; DeleteItem 1; CreateItem 6 itemAX]).
Proof.
  split; [reflexivity|].
  apply (assigned_ids_strictly_increasing EItem constructor
           [CreateItem 5 itemAX; DeleteItem 1; CreateItem 6 itemAX]).
Defined.

Lemma step_messages_below_counter (st : MemStorage) (op : Op) :
  messages_below_counter st -> messages_below_counter (fst (step st op)).
Proof.
  unfold messages_below_counter. intros H.
  destruct op; cbn -[Js.keys Js.set Js.get]; try exact H.
  - unfold updateItem. destruct (getItem st id); exact H.
  - unfold incrementItemViews. destruct (getItem st id); exact H.
  - assert (Habs : Js.get (messages st) (messageIdCounter st) = None).
    { apply get_None_iff. intros Hin. rewrite Forall_forall in H.
      specialize (H _ Hin). lia. }
    rewrite (keys_set_absent _ _ _ Habs).
    apply Forall_app. split.
    + eapply Forall_impl; [|exact H]. cbn. intros; lia.
    + repeat constructor. lia.
  - unfold markMessageAsRead, getMessage.
    destruct (Js.get (messages st) id) as [message|] eqn:E;
      cbn -[Js.keys Js.set Js.get]; [|exact H].
    now rewrite (keys_set_present _ _ _ _ E).
Qed.

Lemma run_messages_below_counter (ops : list Op) :
  forall st : MemStorage,
    messages_below_counter st -> messages_below_counter (run st ops).
Proof.
  induction ops as [|op ops IH]; intros st H; cbn [run]; [exact H|].
  apply IH. now apply step_messages_below_counter.
Qed.

Lemma step_keeps_read (st : MemStorage) (op : Op) (id : Z) (m : Message.t) :
  messages_below_counter st ->
  getMessage st id = Some m -> Message.read m = true ->
  exists m', getMessage (fst (step st op)) id = Some m' /\ Message.read m' = true.
Proof.
  intros Hinv Hget Hread.
  destruct op as [now u|now i|id0 p|id0|id0|now im|id0]; cbn -[Js.keys Js.set Js.get].
  - now exists m.
  - now exists m.
  - unfold updateItem. destruct (getItem st id0); now exists m.
  - now exists m.
  - unfold incrementItemViews. destruct (getItem st id0); now exists m.
  - exists m. split; [|exact Hread].
    unfold getMessage in *. cbn -[Js.keys Js.set Js.get]. rewrite get_set_other; [exact Hget|].
    intros ->. unfold messages_below_counter in Hinv.
    rewrite Forall_forall in Hinv.
    assert (Hin : In (messageIdCounter st) (Js.keys (messages st))).
    { destruct (in_dec Z.eq_dec (messageIdCounter st) (Js.keys (messages st)))
        as [Hin|Hnin]; [exact Hin|].
      apply get_None_iff in Hnin. congruence. }
    specialize (Hinv _ Hin). lia.
  - unfold markMessageAsRead.
    destruct (getMessage st id0) as [m0|] eqn:E; cbn -[Js.keys Js.set Js.get]; [|now exists m].
    unfold getMessage in *. cbn -[Js.keys Js.set Js.get].
    destruct (Z.eq_dec id id0) as [->|Hne].
    + exists (set_read m0). split; [apply get_set_same | reflexivity].
    + exists m. split; [|exact Hread]. now rewrite get_set_other.
Qed.

Lemma run_keeps_read (ops : list Op) :
  forall (st : MemStorage) (id : Z) (m : Message.t),
    messages_below_counter st ->
    getMessage st id = Some m -> Message.read m = true ->
    exists m', getMessage (run st ops) id = Some m' /\ Message.read m' = true.
Proof.
  induction ops as [|op ops IH]; intros st id m Hinv Hget Hread; cbn [run].
  - now exists m.
  - destruct (step_keeps_read st op id m Hinv Hget Hread) as (m1 & Hget1 & Hread1).
    apply (IH _ id m1); auto using step_messages_below_counter.
Qed.

(** C7.  [markMessageAsRead] on a message that is there returns [true] and
    leaves the message with [read] at [true] and its other fields as they
    were; when the message was read already the store does not change.  On
    an id that is not there it returns [false] and the store does not change.
    In every history of the store, from its construction on, a message whose
    [read] is [true] keeps it [true] through every later operation. *)
Theorem markMessageAsRead_sets_and_keeps_read (st : MemStorage) (id : Z) :
  (forall m, getMessage st id = Some m ->
     fst (markMessageAsRead st id) = true
     /\ getMessage (snd (markMessageAsRead st id)) id = Some (set_read m)
     /\ Message.read (set_read m) = true
     /\ (Message.read m = true -> snd (markMessageAsRead st id) = st))
  /\ (getMessage st id = None -> markMessageAsRead st id = (false, st))
  /\ (forall id', id' <> id ->
        getMessage (snd (markMessageAsRead st id)) id' = getMessage st id')
  /\ same_but_messages (snd (markMessageAsRead st id)) st
  /\ (forall (before after : list Op) (m : Message.t),
        getMessage (run constructor before) id = Some m ->
        Message.read m = true ->
        exists m',
          getMessage (run (run constructor before) after) id = Some m'
          /\ Message.read m' = true).
Proof.
  split.
  { intros m H. unfold markMessageAsRead. rewrite H. cbn [fst snd].
    split; [reflexivity|].
    split; [unfold getMessage; cbn; apply get_set_same|].
    split; [reflexivity|].
    intros Hread.
    assert (Hm : set_read m = m) by (destruct m; cbn in *; now subst).
    rewrite Hm. unfold getMessage in H. rewrite (set_get_same _ _ _ H).
    apply with_messages_same. }
  split; [unfold markMessageAsRead; now intros ->|].
  split.
  { intros id' Hne. unfold markMessageAsRead.
    destruct (getMessage st id); [|reflexivity].
    unfold getMessage. cbn. now apply get_set_other. }
  split.
  { unfold markMessageAsRead, same_but_messages.
    destruct (getMessage st id); destruct st; cbn; repeat split. }
  intros before after m Hget Hread.
  apply (run_keeps_read after _ id m); auto.
  apply run_messages_below_counter. constructor.
Qed.

(** A message is created and marked as read; marked again, the answer is
    [true] again and the store is the same; after more operations it is
    still read.  An id that is not there is answered by [false]. *)
Lemma markMessageAsRead_sets_and_keeps_read_witness :
  let st := run constructor [CreateMessage 5 hello; MarkMessageAsRead 1] in
  fst (markMessageAsRead st 1) = true
  /\ snd (markMessageAsRead st 1) = st
  /\ markMessageAsRead st 9 = (false, st)
  /\ exists m',
       getMessage (run st [CreateMessage 6 hello; MarkMessageAsRead 2;
                           CreateItem 7 itemAX]) 1 = Some m'
       /\ Message.read m' = true.
Proof.
  intros st.
  destruct (markMessageAsRead_sets_and_keeps_read st 1)
    as (Hmark & _ & _ & _ & Hkeep).
  destruct (markMessageAsRead_sets_and_keeps_read st 9) as (_ & Hmiss & _).
  destruct (getMessage st 1) as [m|] eqn:E; [|discriminate E].
  destruct (Hmark m eq_refl) as (Htrue & _ & _ & Hsame).
  split; [exact Htrue|].
  split; [apply Hsame; injection E as <-; reflexivity|].
  split; [apply Hmiss; reflexivity|].
  apply (Hkeep [CreateMessage 5 hello; MarkMessageAsRead 1]
               [CreateMessage 6 hello; MarkMessageAsRead 2; CreateItem 7 itemAX]
               m).
  - exact E.
  - injection E as <-. reflexivity.
Defined.

(* ------------------------------------------------------------------ *)
(** * Listing and search *)

Lemma filter_if {A : Type} (c : bool) (f : A -> bool) (l : list A) :
  (if c then filter f l else l) = filter (fun x => if c then f x else true) l.
Proof. destruct c; [reflexivity | symmetry; apply filter_true]. Qed.

Lemma filter_option {A B : Type} (o : option B) (f : B -> A -> bool) (l : list A) :
  match o with
  | Some b => filter (f b) l
  | None => l
  end
  = filter (fun x => match o with Some b => f b x | None => true end) l.
Proof. destruct o; [reflexivity | symmetry; apply filter_true]. Qed.

(** A string filter in force holds of [x] exactly when [x] is the string
    given, a string that is absent or empty holding of every [x]. *)
Lemma string_filter_iff (given : option string) (x : string) :
  (if Js.truthy_string given then Js.strict_eq_string x given else true) = true
  <-> forall s, given = Some s -> s <> ""%string -> x = s.
Proof.
  destruct given as [s|]; cbn.
  - destruct (String.eqb s "") eqn:E; cbn.
    + apply String.eqb_eq in E. split; [|reflexivity].
      intros _ s' [= <-] Hs. contradiction.
    + apply String.eqb_neq in E. rewrite String.eqb_eq. split.
      * now intros -> s' [= <-] _.
      * intros H. now apply H.
  - split; [discriminate | reflexivity].
Qed.

Lemma strict_eq_num_iff (a : Js.optional Z) (b : Z) :
  Js.strict_eq_num a b = true <-> a = Js.Val b.
Proof.
  destruct a as [| |a]; cbn; try (split; discriminate).
  rewrite Z.eqb_eq. split; congruence.
Qed.

Lemma passes_iff (o : GetItemsOptions) (item : Item.t) :
  passes o item = true
  <-> (forall s, g_status o = Some s -> s <> ""%string -> Item.status item = s)
      /\ (forall s, g_type o = Some s -> s <> ""%string -> Item.type item = s)
      /\ (forall u, g_userId o = Some u -> Item.userId item = Js.Val u).
Proof.
  unfold passes. rewrite !andb_true_iff, !string_filter_iff.
  destruct (g_userId o) as [u|].
  - rewrite strict_eq_num_iff. split.
    + intros [[Hs Ht] Hu]. repeat split; auto. now intros u' [= <-].
    + intros (Hs & Ht & Hu). repeat split; auto.
  - split.
    + intros [[Hs Ht] _]. repeat split; auto. discriminate.
    + intros (Hs & Ht & _). repeat split; auto.
Qed.

(** [getItems] with options: the filters in force, the sort, the page. *)
Lemma getItems_options (st : MemStorage) (o : GetItemsOptions) :
  getItems st (Some o)
  = let sorted :=
      Js.sort_desc Item.createdAt (filter (passes o) (Js.values (items st))) in
    if Js.truthy_number (g_limit o)
    then Js.slice sorted (Js.or_zero (g_offset o))
           (Js.or_zero (g_offset o) + Js.or_zero (g_limit o))
    else sorted.
Proof.
  unfold getItems. cbv zeta.
  rewrite !filter_if.
  rewrite (filter_option (g_userId o)
             (fun u item => Js.strict_eq_num (Item.userId item) u)).
  rewrite !filter_filter.
  rewrite (filter_ext _ (passes o)); [reflexivity|].
  intros item. unfold passes. now rewrite andb_assoc.
Qed.

(** C1, as the store has it.  Without options [getItems] returns all the
    items in the order of the map, that of insertion.  With options, let the
    kept items be those that pass the [status] filter when [status] is given
    and not empty, the [type] filter when [type] is given and not empty, and
    the [userId] filter when [userId] is given, and let them be sorted by
    [createdAt], most recent first.  When [limit] is absent, 0 or not a
    number, the result is the sorted list.  When [limit] is another number,
    the result is the [slice] of the sorted list from [offset] (0 when absent
    or not a number) to [offset + limit]: for an offset that is not negative
    and a positive limit, the [limit] items that follow the first [offset]
    ones, and nothing, without an error, when the offset is the length of the
    sorted list or more. *)
Theorem getItems_filters_sorts_pages (st : MemStorage) :
  getItems st None = Js.values (items st)
  /\ forall o : GetItemsOptions,
       let kept := filter (passes o) (Js.values (items st)) in
       let sorted := Js.sort_desc Item.createdAt kept in
       let offset := Js.or_zero (g_offset o) in
       Permutation sorted kept
       /\ StronglySorted (Js.desc Item.createdAt) sorted
       /\ (forall item,
             In item sorted
             <-> In item (Js.values (items st))
                 /\ (forall s, g_status o = Some s -> s <> ""%string ->
                               Item.status item = s)
                 /\ (forall s, g_type o = Some s -> s <> ""%string ->
                               Item.type item = s)
                 /\ (forall u, g_userId o = Some u ->
                               Item.userId item = Js.Val u))
       /\ (g_limit o = None \/ g_limit o = Some (Js.Num 0)
           \/ g_limit o = Some Js.NaN ->
           getItems st (Some o) = sorted)
       /\ (forall limit, g_limit o = Some (Js.Num limit) -> limit <> 0 ->
             getItems st (Some o) = Js.slice sorted offset (offset + limit)
             /\ (0 <= offset -> 0 < limit ->
                 getItems st (Some o) = page sorted offset limit)
             /\ (Z.of_nat (List.length sorted) <= offset ->
                 getItems st (Some o) = [])).
Proof.
  split; [reflexivity|].
  intros o kept sorted offset.
  split; [apply sort_desc_perm|].
  split; [apply sort_desc_sorted|].
  split.
  { intros item. unfold sorted, kept.
    rewrite sort_desc_In, filter_In, passes_iff. reflexivity. }
  split.
  { intros H. rewrite getItems_options. cbv zeta.
    destruct H as [-> | [-> | ->]]; reflexivity. }
  intros limit Hl Hne.
  assert (E : getItems st (Some o) = Js.slice sorted offset (offset + limit)).
  { rewrite getItems_options. cbv zeta. rewrite Hl. cbn.
    apply Z.eqb_neq in Hne. now rewrite Hne. }
  rewrite E.
  split; [reflexivity|].
  split.
  - intros Ho Hpos. apply slice_page; lia.
  - apply slice_out_of_range.
Qed.

(** [getItems({limit: 2, offset: 1})] on five items returns the second and
    the third most recent; an offset of 9 returns nothing. *)
Lemma getItems_filters_sorts_pages_witness :
  map Item.id (getItems five (Some limit2offset1)) = [4; 3]
  /\ getItems five
       (Some (mkGetItemsOptions None None None (Some (Js.Num 2)) (Some (Js.Num 9))))
     = [].
Proof.
  split.
  - destruct (getItems_filters_sorts_pages five) as [_ H].
    destruct (H limit2offset1) as (_ & _ & _ & _ & Hpage).
    destruct (Hpage 2 eq_refl) as (_ & Hp & _); [lia|].
    rewrite Hp by (cbn; lia). reflexivity.
  - destruct (getItems_filters_sorts_pages five) as [_ H].
    destruct (H (mkGetItemsOptions None None None (Some (Js.Num 2))
                   (Some (Js.Num 9)))) as (_ & _ & _ & _ & Hpage).
    destruct (Hpage 2 eq_refl) as (_ & _ & Hout); [lia|].
    apply Hout. cbn. lia.
Defined.

(** C1 as it is worded fails: with a limit of 0 supplied the page from
    [offset] to [offset + 0] is empty, and [getItems] returns every item;
    with the empty string supplied as [status] no sample item passes the
    equality, and [getItems] returns every item. *)
Lemma getItems_spec_fails :
  map Item.id (getItems demo (Some limit0)) = [3; 2; 1]
  /\ getItems_spec demo (Some limit0) = []
  /\ map Item.id (getItems demo (Some statusEmpty)) = [3; 2; 1]
  /\ getItems_spec demo (Some statusEmpty) = []
  /\ getItems demo (Some limit0) <> getItems_spec demo (Some limit0).
Proof.
  split; [vm_compute; reflexivity|].
  split; [vm_compute; reflexivity|].
  split; [vm_compute; reflexivity|].
  split; [vm_compute; reflexivity|].
  intros H. apply (f_equal (@List.length Item.t)) in H.
  vm_compute in H. discriminate.
Qed.

Section SearchFacts.
Variable tzOffset : Z -> Z.

Lemma matches_query_iff (query : string) (item : Item.t) :
  matches_query (Js.toLowerCase query) item = true
  <-> ci_substring_of query (Item.name item)
      \/ ci_substring_of query (Item.description item)
      \/ ci_substring_of query (Item.location item).
Proof.
  unfold matches_query, ci_substring_of.
  rewrite !orb_true_iff, !includes_spec. tauto.
Qed.

Lemma location_filter_iff (given : option string) (location : string) :
  (if Js.truthy_string given
   then Js.includes (Js.toLowerCase location) (Js.toLowerCase (Js.non_null given))
   else true) = true
  <-> forall loc, given = Some loc -> ci_substring_of loc location.
Proof.
  unfold ci_substring_of.
  destruct given as [loc|]; cbn.
  - destruct (String.eqb loc "") eqn:E; cbn.
    + apply String.eqb_eq in E. subst loc. split; [|reflexivity].
      intros _ loc [= <-]. cbn. apply includes_spec, includes_empty.
    + rewrite includes_spec. split.
      * now intros H loc' [= <-].
      * intros H. now apply H.
  - split; [discriminate | reflexivity].
Qed.

Lemma found_iff (query : string) (options : option SearchOptions) (item : Item.t) :
  found tzOffset query options item = true
  <-> (query <> ""%string ->
       ci_substring_of query (Item.name item)
       \/ ci_substring_of query (Item.description item)
       \/ ci_substring_of query (Item.location item))
      /\ (forall o, options = Some o ->
            (forall s, s_status o = Some s -> s <> ""%string ->
                       Item.status item = s)
            /\ (forall s, s_type o = Some s -> s <> ""%string ->
                          Item.type item = s)
            /\ (forall d, s_date o = Some d ->
                          toDateString tzOffset (Item.date item)
                          = toDateString tzOffset d)
            /\ (forall loc, s_location o = Some loc ->
                            ci_substring_of loc (Item.location item))).
Proof.
  unfold found. rewrite andb_true_iff.
  assert (Hq : (if String.eqb query "" then true
                else matches_query (Js.toLowerCase query) item) = true
               <-> (query <> ""%string ->
                    ci_substring_of query (Item.name item)
                    \/ ci_substring_of query (Item.description item)
                    \/ ci_substring_of query (Item.location item))).
  { destruct (String.eqb query "") eqn:E.
    - apply String.eqb_eq in E. split; [intros _ Hne; contradiction | reflexivity].
    - apply String.eqb_neq in E. rewrite matches_query_iff. tauto. }
  rewrite Hq. clear Hq.
  destruct options as [o|].
  - rewrite !andb_true_iff, !string_filter_iff, location_filter_iff.
    assert (Hd : match s_date o with
                 | Some d =>
                   toDateString tzOffset (Item.date item) =? toDateString tzOffset d
                 | None => true
                 end = true
                 <-> forall d, s_date o = Some d ->
                               toDateString tzOffset (Item.date item)
                               = toDateString tzOffset d).
    { destruct (s_date o) as [d|].
      - rewrite Z.eqb_eq. split; [now intros H d' [= <-] | intros H; now apply H].
      - split; [discriminate | reflexivity]. }
    rewrite Hd. clear Hd. split.
    + intros (Hq & ((Hs & Ht) & Hd) & Hl). split; [exact Hq|].
      intros o' [= <-]. auto.
    + intros (Hq & Ho). destruct (Ho o eq_refl) as (Hs & Ht & Hd & Hl). auto.
  - split.
    + intros [Hq _]. split; [exact Hq | discriminate].
    + intros [Hq _]. auto.
Qed.

(** [searchItems]: the filters in force, then the sort. *)
Lemma searchItems_found (st : MemStorage) (query : string)
  (options : option SearchOptions) :
  searchItems tzOffset st query options
  = Js.sort_desc Item.createdAt
      (filter (found tzOffset query options) (Js.values (items st))).
Proof.
  unfold searchItems. cbv zeta. f_equal.
  destruct options as [o|].
  - rewrite !filter_if.
    rewrite (filter_option (s_date o)
               (fun d item =>
                  toDateString tzOffset (Item.date item) =? toDateString tzOffset d)).
    rewrite !filter_filter. apply filter_ext.
    intros item. unfold found.
    destruct (String.eqb query ""); cbn [negb]; now rewrite !andb_assoc.
  - rewrite filter_if. apply filter_ext.
    intros item. unfold found.
    destruct (String.eqb query ""); cbn [negb]; now rewrite andb_true_r.
Qed.

(** C2, as the store has it.  The result of [searchItems] is made of exactly
    the items that pass, all at once: the text filter when the query is not
    empty (the query is a substring of the name, of the description or of the
    location, the case of letters not counting); the [status] filter when
    [status] is given and not empty; the [type] filter when [type] is given
    and not empty; the date filter when a date is given (the same local
    calendar day); the location filter when a location is given (a substring
    of the location, the case of letters not counting).  It is sorted by
    [createdAt], most recent first. *)
Theorem searchItems_filters_and_sorts (st : MemStorage) (query : string)
  (options : option SearchOptions) :
  let result := searchItems tzOffset st query options in
  let kept := filter (found tzOffset query options) (Js.values (items st)) in
  result = Js.sort_desc Item.createdAt kept
  /\ Permutation result kept
  /\ StronglySorted (Js.desc Item.createdAt) result
  /\ forall item,
       In item result
       <-> In item (Js.values (items st))
           /\ (query <> ""%string ->
               ci_substring_of query (Item.name item)
               \/ ci_substring_of query (Item.description item)
               \/ ci_substring_of query (Item.location item))
           /\ (forall o, options = Some o ->
                 (forall s, s_status o = Some s -> s <> ""%string ->
                            Item.status item = s)
                 /\ (forall s, s_type o = Some s -> s <> ""%string ->
                               Item.type item = s)
                 /\ (forall d, s_date o = Some d ->
                               toDateString tzOffset (Item.date item)
                               = toDateString tzOffset d)
                 /\ (forall loc, s_location o = Some loc ->
                                 ci_substring_of loc (Item.location item))).
Proof.
  cbv zeta. rewrite searchItems_found.
  split; [reflexivity|].
  split; [apply sort_desc_perm|].
  split; [apply sort_desc_sorted|].
  intros item. rewrite sort_desc_In, filter_In, found_iff. reflexivity.
Qed.
End SearchFacts.

(** On the sample data: [backpack] finds the item whose description has
    [backpack] and whose name has [Backpack], and no other; the empty query
    with the location [delhi] finds the two items of Delhi, most recent
    first. *)
Lemma searchItems_filters_and_sorts_witness :
  map Item.id (searchItems ist demo "backpack" None) = [1]
  /\ map Item.id (searchItems ist demo "" (Some inDelhi)) = [3; 1]
  /\ StronglySorted (Js.desc Item.createdAt)
       (searchItems ist demo "" (Some inDelhi)).
Proof.
  split; [vm_compute; reflexivity|].
  split; [vm_compute; reflexivity|].
  destruct (searchItems_filters_and_sorts ist demo "" (Some inDelhi))
    as (_ & _ & Hsorted & _).
  exact Hsorted.
Defined.

(** C2 as it is worded fails: with the empty string supplied as [status] no
    sample item passes the equality, and [searchItems] returns every item. *)
Lemma searchItems_spec_fails :
  map Item.id (searchItems ist demo "" (Some searchStatusEmpty)) = [3; 2; 1]
  /\ searchItems_spec ist demo "" (Some searchStatusEmpty) = []
  /\ searchItems ist demo "" (Some searchStatusEmpty)
     <> searchItems_spec ist demo "" (Some searchStatusEmpty).
Proof.
  split; [vm_compute; reflexivity|].
  split; [vm_compute; reflexivity|].
  intros H. apply (f_equal (@List.length Item.t)) in H.
  vm_compute in H. discriminate.
Qed.

(** C10.  A [status] or a [type] given to [getItems] or [searchItems] as the
    empty string, and a [location] given to [searchItems] as the empty
    string, are as if they were absent: the result is the one of the call
    without the key, whatever the other options.  A [limit] of 0 given to
    [getItems] is as if it were absent: there is no page and the result is
    the whole sorted list of the items the other filters keep. *)
Theorem falsy_options_are_absent (st : MemStorage) :
  (forall type userId limit offset,
      getItems st (Some (mkGetItemsOptions (Some ""%string) type userId limit offset))
      = getItems st (Some (mkGetItemsOptions None type userId limit offset)))
  /\ (forall status userId limit offset,
        getItems st (Some (mkGetItemsOptions status (Some ""%string) userId limit offset))
        = getItems st (Some (mkGetItemsOptions status None userId limit offset)))
  /\ (forall status type userId offset,
        getItems st (Some (mkGetItemsOptions status type userId (Some (Js.Num 0)) offset))
        = getItems st (Some (mkGetItemsOptions status type userId None offset)))
  /\ (forall status type userId offset,
        getItems st (Some (mkGetItemsOptions status type userId (Some (Js.Num 0)) offset))
        = Js.sort_desc Item.createdAt
            (filter (passes (mkGetItemsOptions status type userId None None))
               (Js.values (items st))))
  /\ (forall offset,
        Permutation
          (getItems st (Some (mkGetItemsOptions (Some ""%string) (Some ""%string)
                                None (Some (Js.Num 0)) offset)))
          (Js.values (items st)))
  /\ (forall tzOffset query type date location,
        searchItems tzOffset st query
          (Some (mkSearchOptions (Some ""%string) type date location))
        = searchItems tzOffset st query
            (Some (mkSearchOptions None type date location)))
  /\ (forall tzOffset query status date location,
        searchItems tzOffset st query
          (Some (mkSearchOptions status (Some ""%string) date location))
        = searchItems tzOffset st query
            (Some (mkSearchOptions status None date location)))
  /\ (forall tzOffset query status type date,
        searchItems tzOffset st query
          (Some (mkSearchOptions status type date (Some ""%string)))
        = searchItems tzOffset st query
            (Some (mkSearchOptions status type date None))).
Proof.
  split; [reflexivity|].
  split; [intros; unfold getItems; cbn; reflexivity|].
  split; [reflexivity|].
  split; [intros; now rewrite getItems_options|].
  split.
  { intros offset. unfold getItems. cbn. apply sort_desc_perm. }
  split; [reflexivity|].
  split; [intros; unfold searchItems; cbn; reflexivity|].
  intros; unfold searchItems; cbn; reflexivity.
Qed.

(** On the sample data, an empty [status] with a [limit] of 0 returns the
    three items. *)
Lemma falsy_options_are_absent_witness :
  map Item.id
    (getItems demo
       (Some (mkGetItemsOptions (Some ""%string) None None (Some (Js.Num 0)) None)))
  = map Item.id (getItems demo (Some (mkGetItemsOptions None None None None None))).
Proof.
  destruct (falsy_options_are_absent demo) as (Hs & _ & Hl & _).
  rewrite Hs, Hl. reflexivity.
Defined.

(** C8, at the input where the store departs from it.  An item is created
    at the time 5, with [views] at 0.  [updateItem] with an update that
    carries [views] and [createdAt] stores both as given: [views] is 99
    with no call of [incrementItemViews], and [createdAt] is no longer the
    time of creation. *)
Theorem updateItem_overwrites_views_and_createdAt :
  let st := snd (createItem 5 constructor itemAX) in
  (exists item,
     getItem st 1 = Some item
     /\ Item.views item = 0 /\ Item.createdAt item = 5)
  /\ exists merged,
       fst (updateItem st 1 views99createdAt0) = Some merged
       /\ getItem (snd (updateItem st 1 views99createdAt0)) 1 = Some merged
       /\ Item.views merged = 99
       /\ Item.createdAt merged = 0.
Proof.
  cbv zeta. split.
  - eexists. split; [reflexivity|]. split; reflexivity.
  - eexists. split; [reflexivity|]. repeat split.
Qed.

(* ------------------------------------------------------------------ *)
(** * More on maps and on the shape of the store *)

Section MoreMapFacts.
Context {V : Type}.
Implicit Types (m : Js.Map V) (k : Z) (v : V).

Lemma set_absent m k v : Js.get m k = None -> Js.set m k v = m ++ [(k, v)].
Proof.
  induction m as [|[k' v'] m IH]; simpl; [reflexivity|].
  destruct (k' =? k); [discriminate | intros H; now rewrite (IH H)].
Qed.

Lemma set_set m k v w : Js.set (Js.set m k v) k w = Js.set m k w.
Proof.
  induction m as [|[k' v'] m IH]; simpl.
  - now rewrite Z.eqb_refl.
  - destruct (k' =? k) eqn:E; simpl.
    + now rewrite Z.eqb_refl.
    + now rewrite E, IH.
Qed.

Lemma remove_filter m k :
  Js.remove m k = filter (fun entry => negb (fst entry =? k)) m.
Proof.
  induction m as [|[k' v'] m IH]; simpl; [reflexivity|].
  destruct (k' =? k); simpl; now rewrite IH.
Qed.

Lemma keys_remove m k :
  Js.keys (Js.remove m k) = filter (fun k' => negb (k' =? k)) (Js.keys m).
Proof.
  induction m as [|[k' v'] m IH]; simpl; [reflexivity|].
  destruct (k' =? k); simpl; now rewrite IH.
Qed.

Lemma get_below m k c :
  Forall (fun k' => 1 <= k' < c) (Js.keys m) -> c <= k -> Js.get m k = None.
Proof.
  intros H Hk. apply get_None_iff. intros Hin.
  rewrite Forall_forall in H. specialize (H _ Hin). lia.
Qed.

Lemma get_In m k v : Js.get m k = Some v -> In k (Js.keys m).
Proof.
  intros H. destruct (in_dec Z.eq_dec k (Js.keys m)) as [Hin|Hnin]; [exact Hin|].
  apply get_None_iff in Hnin. congruence.
Qed.

Lemma get_In_entry m k v : Js.get m k = Some v -> In (k, v) m.
Proof.
  induction m as [|[k' v'] m IH]; simpl; [discriminate|].
  destruct (k' =? k) eqn:E.
  - apply Z.eqb_eq in E. intros [= ->]. left. now subst.
  - intros H. right. auto.
Qed.

Lemma Forall_set (P : Z * V -> Prop) m k v :
  Forall P m -> P (k, v) -> Forall P (Js.set m k v).
Proof.
  intros H Hp. induction H as [|[k' v'] m Hx Hm IH]; simpl.
  - now repeat constructor.
  - destruct (k' =? k); constructor; auto.
Qed.

Lemma keys_in_order_set_present m k v v0 c :
  Js.get m k = Some v0 -> keys_in_order m c -> keys_in_order (Js.set m k v) c.
Proof.
  unfold keys_in_order. intros H. now rewrite (keys_set_present _ _ _ _ H).
Qed.

Lemma keys_in_order_set_counter m c v :
  1 <= c -> keys_in_order m c -> keys_in_order (Js.set m c v) (c + 1).
Proof.
  unfold keys_in_order. intros Hc [Hs Hr].
  rewrite (keys_set_absent _ _ _ (get_below _ _ _ Hr (Z.le_refl c))).
  split.
  - clear Hc. induction Hs as [|k l Hs IH Hall]; simpl.
    + repeat constructor.
    + inversion Hr as [|? ? Hk Hr']; subst.
      constructor; [now apply IH|].
      apply Forall_app. split; [exact Hall | repeat constructor; lia].
  - apply Forall_app. split.
    + eapply Forall_impl; [|exact Hr]. cbn. intros; lia.
    + repeat constructor; lia.
Qed.

Lemma keys_in_order_remove m k c :
  keys_in_order m c -> keys_in_order (Js.remove m k) c.
Proof.
  unfold keys_in_order. rewrite keys_remove. intros [Hs Hr]. split.
  - induction Hs as [|x l Hs IH Hall]; simpl; [constructor|].
    inversion Hr as [|? ? Hx Hr']; subst.
    destruct (negb (x =? k)); [|now apply IH].
    constructor; [now apply IH|].
    rewrite Forall_forall in *. intros y Hy.
    apply filter_In in Hy. now apply Hall.
  - rewrite Forall_forall in *. intros y Hy. apply filter_In in Hy. now apply Hr.
Qed.
End MoreMapFacts.

Lemma well_formed_constructor : well_formed constructor.
Proof.
  unfold well_formed, counters_positive, keys_in_order, keyed_by_id. cbn.
  repeat split; try constructor; lia.
Qed.

Ltac split_well_formed :=
  split;
  [ cbn; repeat split; lia
  | split; [|split; [|split; [|split]]] ];
  cbn -[Js.keys Js.set Js.get Js.remove keys_in_order keyed_by_id];
  try assumption.

Lemma step_well_formed (st : MemStorage) (op : Op) :
  well_formed st -> well_formed (fst (step st op)).
Proof.
  unfold well_formed, counters_positive.
  intros ((Hu1 & Hi1 & Hm1) & Hu & Hi & Hm & Hku & Hkm).
  destruct op as [now u|now i|id p|id|id|now im|id];
    cbn -[Js.keys Js.set Js.get Js.remove keys_in_order keyed_by_id].
  - split_well_formed.
    + now apply keys_in_order_set_counter.
    + now apply Forall_set.
  - split_well_formed. now apply keys_in_order_set_counter.
  - unfold updateItem. destruct (getItem st id) as [item|] eqn:E;
      split_well_formed.
    now apply keys_in_order_set_present with (v0 := item).
  - split_well_formed. now apply keys_in_order_remove.
  - unfold incrementItemViews. destruct (getItem st id) as [item|] eqn:E;
      split_well_formed.
    now apply keys_in_order_set_present with (v0 := item).
  - split_well_formed.
    + now apply keys_in_order_set_counter.
    + now apply Forall_set.
  - unfold markMessageAsRead. destruct (getMessage st id) as [m|] eqn:E;
      split_well_formed.
    + now apply keys_in_order_set_present with (v0 := m).
    + apply Forall_set; [exact Hkm|].
      unfold keyed_by_id in Hkm. rewrite Forall_forall in Hkm.
      apply (Hkm _ (get_In_entry _ _ _ E)).
Qed.

Lemma run_well_formed (ops : list Op) :
  forall st : MemStorage, well_formed st -> well_formed (run st ops).
Proof.
  induction ops as [|op ops IH]; intros st H; cbn [run]; [exact H|].
  apply IH. now apply step_well_formed.
Qed.

(** X1.  In every store that a history of operations builds from the
    constructor, the keys of each of the three maps are in strictly
    increasing order (the order of insertion is the order of the ids), they
    lie between 1 and the counter of the map, excluded, and every user and
    every message is stored under the id it carries. *)
Theorem history_keeps_store_well_formed (ops : list Op) :
  well_formed (run constructor ops).
Proof. apply run_well_formed, well_formed_constructor. Qed.

(* ------------------------------------------------------------------ *)
(** * What a history cannot do *)

Lemma well_formed_items_counter (st : MemStorage) (id : Z) (item : Item.t) :
  well_formed st -> getItem st id = Some item -> id < itemIdCounter st.
Proof.
  intros (_ & _ & [_ Hr] & _) H. apply get_In in H.
  rewrite Forall_forall in Hr. specialize (Hr _ H). lia.
Qed.

Lemma step_items_counter_mono (st : MemStorage) (op : Op) :
  itemIdCounter st <= itemIdCounter (fst (step st op)).
Proof. apply (step_counter_mono EItem). Qed.

Lemma step_keeps_absent (st : MemStorage) (op : Op) (id : Z) :
  id < itemIdCounter st -> getItem st id = None ->
  getItem (fst (step st op)) id = None.
Proof.
  intros Hlt Hnone. unfold getItem in *.
  destruct op as [now u|now i|id0 p|id0|id0|now im|id0];
    cbn -[Js.set Js.get Js.remove]; try exact Hnone.
  - rewrite get_set_other; [exact Hnone | lia].
  - unfold updateItem, getItem.
    destruct (Js.get (items st) id0) eqn:E; cbn -[Js.set Js.get]; [|exact Hnone].
    rewrite get_set_other; [exact Hnone | congruence].
  - destruct (Z.eq_dec id id0) as [->|Hne].
    + apply get_remove_same.
    + now rewrite get_remove_other.
  - unfold incrementItemViews, getItem.
    destruct (Js.get (items st) id0) eqn:E; cbn -[Js.set Js.get]; [|exact Hnone].
    rewrite get_set_other; [exact Hnone | congruence].
  - unfold markMessageAsRead. now destruct (getMessage st id0).
Qed.

Lemma run_keeps_absent (ops : list Op) :
  forall (st : MemStorage) (id : Z),
    id < itemIdCounter st -> getItem st id = None ->
    getItem (run st ops) id = None.
Proof.
  induction ops as [|op ops IH]; intros st id Hlt Hnone; cbn [run]; [exact Hnone|].
  apply IH.
  - pose proof (step_items_counter_mono st op). lia.
  - now apply step_keeps_absent.
Qed.

(** X2.  An item that is deleted never comes back: in a store that a
    history builds, once [deleteItem] has taken away the item under [id], no
    later sequence of operations makes [getItem] find an item under [id]
    again, because a creation takes its id from the counter, which is above
    every id given before. *)
Theorem deleted_item_never_returns (st : MemStorage) (id : Z) (item : Item.t)
  (ops : list Op) :
  well_formed st ->
  getItem st id = Some item ->
  getItem (run (snd (deleteItem st id)) ops) id = None.
Proof.
  intros Hwf Hget. apply run_keeps_absent.
  - cbn. now apply well_formed_items_counter with (item := item).
  - unfold getItem. cbn. apply get_remove_same.
Qed.

Lemma deleted_item_never_returns_witness :
  getItem
    (run (snd (deleteItem demo 2))
       [CreateItem 9 itemAX; UpdateItem 2 locationY; IncrementItemViews 2;
        CreateItem 10 itemAX]) 2
  = None.
Proof.
  destruct (getItem demo 2) as [item|] eqn:E; [|discriminate E].
  apply (deleted_item_never_returns demo 2 item).
  - apply (run_well_formed
             [CreateUser 1700000000000 demoUser;
              CreateItem 1700000000001 (nth 0 (sampleItems 1700000000000 1) itemAX);
              CreateItem 1700000000002 (nth 1 (sampleItems 1700000000000 1) itemAX);
              CreateItem 1700000000003 (nth 2 (sampleItems 1700000000000 1) itemAX)]
             constructor well_formed_constructor).
  - exact E.
Defined.

Lemma step_keeps_user (st : MemStorage) (op : Op) (id : Z) (u : User.t) :
  well_formed st -> getUser st id = Some u ->
  getUser (fst (step st op)) id = Some u.
Proof.
  intros (_ & [_ Hr] & _) Hget. unfold getUser in *.
  destruct op as [now iu|now i|id0 p|id0|id0|now im|id0];
    cbn -[Js.set Js.get Js.remove]; try exact Hget.
  - rewrite get_set_other; [exact Hget|].
    apply get_In in Hget. rewrite Forall_forall in Hr.
    specialize (Hr _ Hget). lia.
  - unfold updateItem. now destruct (getItem st id0).
  - unfold incrementItemViews. now destruct (getItem st id0).
  - unfold markMessageAsRead. now destruct (getMessage st id0).
Qed.

(** X3.  A user, once created, is never changed and never removed: in a
    store that a history builds, what [getUser] finds under an id it finds
    there, the same, after any sequence of operations. *)
Theorem user_never_changes (st : MemStorage) (id : Z) (u : User.t)
  (ops : list Op) :
  well_formed st ->
  getUser st id = Some u ->
  getUser (run st ops) id = Some u.
Proof.
  revert st. induction ops as [|op ops IH]; intros st Hwf Hget; cbn [run].
  - exact Hget.
  - apply IH; [now apply step_well_formed | now apply step_keeps_user].
Qed.

Lemma user_never_changes_witness :
  getUser
    (run (fst (step constructor (CreateUser 5 demoUser)))
       [CreateUser 6 demoUser; CreateItem 7 itemAX; DeleteItem 1]) 1
  = getUser (fst (step constructor (CreateUser 5 demoUser))) 1.
Proof.
  destruct (getUser (fst (step constructor (CreateUser 5 demoUser))) 1)
    as [u|] eqn:E; [|discriminate E].
  apply (user_never_changes _ 1 u); [|exact E].
  apply step_well_formed, well_formed_constructor.
Defined.

Lemma same_but_read_refl (m : Message.t) : same_but_read m m.
Proof. unfold same_but_read. repeat split. Qed.

Lemma step_keeps_message (st : MemStorage) (op : Op) (id : Z) (m : Message.t) :
  well_formed st -> getMessage st id = Some m ->
  exists m', getMessage (fst (step st op)) id = Some m' /\ same_but_read m' m.
Proof.
  intros (_ & _ & _ & [_ Hr] & _) Hget. unfold getMessage in *.
  destruct op as [now iu|now i|id0 p|id0|id0|now im|id0];
    cbn -[Js.set Js.get Js.remove];
    try (exists m; split; [exact Hget | apply same_but_read_refl]).
  - unfold updateItem. destruct (getItem st id0);
      exists m; split; [exact Hget | apply same_but_read_refl
                        | exact Hget | apply same_but_read_refl].
  - unfold incrementItemViews. destruct (getItem st id0);
      exists m; split; [exact Hget | apply same_but_read_refl
                        | exact Hget | apply same_but_read_refl].
  - exists m. split; [|apply same_but_read_refl].
    rewrite get_set_other; [exact Hget|].
    apply get_In in Hget. rewrite Forall_forall in Hr.
    specialize (Hr _ Hget). lia.
  - unfold markMessageAsRead, getMessage.
    destruct (Js.get (messages st) id0) as [m0|] eqn:E;
      cbn -[Js.set Js.get]; [|exists m; split; [exact Hget | apply same_but_read_refl]].
    destruct (Z.eq_dec id id0) as [->|Hne].
    + exists (set_read m0). split; [apply get_set_same|].
      assert (m0 = m) by congruence. subst m0.
      unfold same_but_read. now destruct m.
    + exists m. split; [now rewrite get_set_other | apply same_but_read_refl].
Qed.

(** X4.  A message, once created, is never removed, and nothing of it
    changes but [read]: in a store that a history builds, after any sequence
    of operations [getMessage] finds under the id a message with the same
    id, item, sender, recipient, content and time of creation. *)
Theorem message_changes_only_read (st : MemStorage) (id : Z) (m : Message.t)
  (ops : list Op) :
  well_formed st ->
  getMessage st id = Some m ->
  exists m', getMessage (run st ops) id = Some m' /\ same_but_read m' m.
Proof.
  revert st m. induction ops as [|op ops IH]; intros st m Hwf Hget; cbn [run].
  - exists m. split; [exact Hget | apply same_but_read_refl].
  - destruct (step_keeps_message st op id m Hwf Hget) as (m1 & Hget1 & Hs1).
    destruct (IH _ m1 (step_well_formed st op Hwf) Hget1) as (m2 & Hget2 & Hs2).
    exists m2. split; [exact Hget2|].
    unfold same_but_read in *. intuition congruence.
Qed.

Lemma message_changes_only_read_witness :
  exists m',
    getMessage
      (run (fst (step constructor (CreateMessage 5 hello)))
         [MarkMessageAsRead 1; CreateMessage 6 hello; DeleteItem 1]) 1
    = Some m'
    /\ Message.content m' = "Is it still there?"%string.
Proof.
  destruct (getMessage (fst (step constructor (CreateMessage 5 hello))) 1)
    as [m|] eqn:E; [|discriminate E].
  destruct (message_changes_only_read
              (fst (step constructor (CreateMessage 5 hello))) 1 m
              [MarkMessageAsRead 1; CreateMessage 6 hello; DeleteItem 1])
    as (m' & Hget & _ & _ & _ & _ & Hcontent & _).
  - apply step_well_formed, well_formed_constructor.
  - exact E.
  - exists m'. split; [exact Hget|]. rewrite Hcontent.
    injection E as <-. reflexivity.
Defined.

Lemma same_but_views_trans (a b c : Item.t) :
  same_but_views a b -> same_but_views b c -> same_but_views a c.
Proof. unfold same_but_views. intuition congruence. Qed.

Lemma step_counts_views (st : MemStorage) (op : Op) (id : Z) (item : Item.t) :
  well_formed st -> getItem st id = Some item ->
  rewrites_item id op = false ->
  exists item',
    getItem (fst (step st op)) id = Some item'
    /\ same_but_views item' item
    /\ Item.views item' = Item.views item + increments id [op].
Proof.
  intros Hwf Hget Hop.
  pose proof (well_formed_items_counter st id item Hwf Hget) as Hlt.
  unfold getItem in *.
  destruct op as [now iu|now i|id0 p|id0|id0|now im|id0];
    cbn -[Js.set Js.get Js.remove];
    try (exists item; split; [exact Hget|];
         split; [apply same_but_views_refl | lia]).
  - exists item. rewrite get_set_other by lia.
    split; [exact Hget|]. split; [apply same_but_views_refl | lia].
  - cbn in Hop. apply Z.eqb_neq in Hop.
    exists item. split; [|split; [apply same_but_views_refl | lia]].
    unfold updateItem, getItem.
    destruct (Js.get (items st) id0); cbn -[Js.set Js.get]; [|exact Hget].
    rewrite get_set_other; [exact Hget | congruence].
  - cbn in Hop. apply Z.eqb_neq in Hop.
    exists item. split; [|split; [apply same_but_views_refl | lia]].
    rewrite get_remove_other; [exact Hget | congruence].
  - unfold incrementItemViews, getItem.
    destruct (Z.eqb_spec id0 id) as [->|Hne].
    + rewrite Hget. cbn -[Js.set Js.get].
      exists (add_view item). split; [apply get_set_same|].
      split; [apply same_but_views_add_view, same_but_views_refl|].
      cbn. lia.
    + exists item. split; [|split; [apply same_but_views_refl | lia]].
      destruct (Js.get (items st) id0); cbn -[Js.set Js.get]; [|exact Hget].
      rewrite get_set_other; [exact Hget | congruence].
  - exists item. split; [|split; [apply same_but_views_refl | lia]].
    unfold markMessageAsRead. now destruct (getMessage st id0).
Qed.

Lemma increments_cons (id : Z) (op : Op) (ops : list Op) :
  increments id (op :: ops) = increments id [op] + increments id ops.
Proof. destruct op; cbn [increments]; lia. Qed.

(** X5.  Through a history in which the item [id] is neither deleted nor
    updated, the item stays, every field of it but [views] stays as it was
    ([createdAt] among them), and [views] grows by exactly the number of
    calls of [incrementItemViews] on [id]: no other operation, on this item
    or on another entity, touches it. *)
Theorem views_count_increments (st : MemStorage) (id : Z) (item : Item.t)
  (ops : list Op) :
  well_formed st ->
  getItem st id = Some item ->
  never_rewrites id ops = true ->
  exists item',
    getItem (run st ops) id = Some item'
    /\ same_but_views item' item
    /\ Item.views item' = Item.views item + increments id ops.
Proof.
  revert st item. induction ops as [|op ops IH]; intros st item Hwf Hget Hops.
  - exists item. cbn. split; [exact Hget|].
    split; [apply same_but_views_refl | lia].
  - cbn [never_rewrites forallb] in Hops. apply andb_true_iff in Hops.
    destruct Hops as [Hop Hops]. apply negb_true_iff in Hop.
    destruct (step_counts_views st op id item Hwf Hget Hop)
      as (item1 & Hget1 & Hs1 & Hv1).
    destruct (IH _ item1 (step_well_formed st op Hwf) Hget1 Hops)
      as (item2 & Hget2 & Hs2 & Hv2).
    exists item2. cbn [run]. split; [exact Hget2|].
    split; [now apply same_but_views_trans with (b := item1)|].
    rewrite (increments_cons id op ops). lia.
Qed.

Lemma views_count_increments_witness :
  exists item',
    getItem
      (run five
         [IncrementItemViews 2; IncrementItemViews 3; UpdateItem 3 views99createdAt0;
          IncrementItemViews 2; CreateItem 20 itemAX; DeleteItem 1]) 2
    = Some item'
    /\ Item.views item' = 2 /\ Item.createdAt item' = 11.
Proof.
  destruct (getItem five 2) as [item|] eqn:E; [|discriminate E].
  destruct (views_count_increments five 2 item
              [IncrementItemViews 2; IncrementItemViews 3;
               UpdateItem 3 views99createdAt0; IncrementItemViews 2;
               CreateItem 20 itemAX; DeleteItem 1])
    as (item' & Hget & Hsame & Hviews).
  - apply run_well_formed, well_formed_constructor.
  - exact E.
  - reflexivity.
  - exists item'. split; [exact Hget|].
    injection E as <-. split.
    + rewrite Hviews. reflexivity.
    + destruct Hsame as (_ & _ & _ & _ & _ & _ & _ & _ & _ & _ & _ & _ & _ & Hc).
      rewrite Hc. reflexivity.
Defined.

(* ------------------------------------------------------------------ *)
(** * Users and messages *)

Lemma find_first {A : Type} (p : A -> bool) (l : list A) (x : A) :
  Js.find p l = Some x
  <-> exists before after,
        l = before ++ x :: after
        /\ p x = true
        /\ forall y, In y before -> p y = false.
Proof.
  unfold Js.find. split.
  - induction l as [|a l IH]; simpl; [discriminate|].
    destruct (p a) eqn:E.
    + intros [= ->]. exists [], l. repeat split; [exact E | intros y []].
    + intros H. destruct (IH H) as (before & after & -> & Hx & Hb).
      exists (a :: before), after. repeat split; [exact Hx|].
      intros y [<- | Hy]; auto.
  - intros (before & after & -> & Hx & Hb).
    induction before as [|a before IH]; simpl.
    + now rewrite Hx.
    + rewrite (Hb a (or_introl eq_refl)). apply IH.
      intros y Hy. apply Hb. now right.
Qed.

Lemma find_app_none {A : Type} (p : A -> bool) (l l' : list A) :
  Js.find p l = None -> Js.find p (l ++ l') = Js.find p l'.
Proof.
  unfold Js.find. induction l as [|a l IH]; simpl; [reflexivity|].
  destruct (p a); [discriminate | exact IH].
Qed.

Lemma find_app_some {A : Type} (p : A -> bool) (l l' : list A) (x : A) :
  Js.find p l = Some x -> Js.find p (l ++ l') = Some x.
Proof.
  unfold Js.find. induction l as [|a l IH]; simpl; [discriminate|].
  destruct (p a); [trivial | exact IH].
Qed.

(** X6.  [getUserByUsername] and [getUserByEmail] return the first user, in
    the order of insertion, whose name or address is the one asked for, the
    comparison being exact (the case of letters counts): every user before
    it in the map has another. *)
Theorem lookups_return_first_match (st : MemStorage) (key : string) (u : User.t) :
  (getUserByUsername st key = Some u
   <-> exists before after,
         Js.values (users st) = before ++ u :: after
         /\ User.username u = key
         /\ forall v, In v before -> User.username v <> key)
  /\ (getUserByEmail st key = Some u
      <-> exists before after,
            Js.values (users st) = before ++ u :: after
            /\ User.email u = key
            /\ forall v, In v before -> User.email v <> key).
Proof.
  unfold getUserByUsername, getUserByEmail. rewrite !find_first.
  split; split; intros (before & after & Hl & Hu & Hb);
    exists before, after; (split; [exact Hl|]).
  - split; [now apply String.eqb_eq | intros v Hv; apply String.eqb_neq; auto].
  - split; [now apply String.eqb_eq | intros v Hv; apply String.eqb_neq; auto].
  - split; [now apply String.eqb_eq | intros v Hv; apply String.eqb_neq; auto].
  - split; [now apply String.eqb_eq | intros v Hv; apply String.eqb_neq; auto].
Qed.

Lemma values_set_absent {V : Type} (m : Js.Map V) (k : Z) (v : V) :
  Js.get m k = None -> Js.values (Js.set m k v) = Js.values m ++ [v].
Proof.
  intros H. rewrite (set_absent _ _ _ H). unfold Js.values.
  now rewrite map_app.
Qed.

Lemma createUser_values (now : Z) (st : MemStorage) (insertUser : InsertUser.t) :
  well_formed st ->
  Js.values (users (snd (createUser now st insertUser)))
  = Js.values (users st) ++ [fst (createUser now st insertUser)].
Proof.
  intros (_ & [_ Hr] & _). cbn -[Js.set Js.values].
  apply values_set_absent. apply (get_below _ _ _ Hr). lia.
Qed.

(** X7.  [createUser] gives the user the value of the user counter as id
    (the counter then advances by one) and the time of the call as
    [createdAt], copies the four fields of the input, and stores the user:
    [getUser] on the id returns it.  The other users, the items, the
    messages and the two other counters are as before.  The store does not
    compare names or addresses: the creation succeeds whatever they are. *)
Theorem createUser_assigns (now : Z) (st : MemStorage) (insertUser : InsertUser.t) :
  let user := fst (createUser now st insertUser) in
  let st' := snd (createUser now st insertUser) in
  User.id user = userIdCounter st
  /\ userIdCounter st' = userIdCounter st + 1
  /\ User.createdAt user = now
  /\ User.username user = InsertUser.username insertUser
  /\ User.password user = InsertUser.password insertUser
  /\ User.email user = InsertUser.email insertUser
  /\ User.name user = InsertUser.name insertUser
  /\ getUser st' (User.id user) = Some user
  /\ (forall id', id' <> User.id user -> getUser st' id' = getUser st id')
  /\ items st' = items st /\ messages st' = messages st
  /\ itemIdCounter st' = itemIdCounter st
  /\ messageIdCounter st' = messageIdCounter st.
Proof.
  cbn -[Js.set Js.get]. unfold getUser. cbn -[Js.set Js.get].
  repeat (split; [reflexivity|]).
  split; [apply get_set_same|].
  split; [intros id' Hne; now apply get_set_other|].
  repeat split.
Qed.

(** X8.  In a store that a history builds, [createUser] appends: a lookup
    by address that found a user finds the same user after the creation,
    also when the new user has the same address (the store keeps both, and
    the first one answers); a lookup that found none finds the new user when
    the address is the new user's, and none otherwise. *)
Theorem createUser_then_getUserByEmail (now : Z) (st : MemStorage)
  (insertUser : InsertUser.t) (email : string) :
  well_formed st ->
  let user := fst (createUser now st insertUser) in
  let st' := snd (createUser now st insertUser) in
  (forall u, getUserByEmail st email = Some u -> getUserByEmail st' email = Some u)
  /\ (getUserByEmail st email = None -> InsertUser.email insertUser = email ->
      getUserByEmail st' email = Some user)
  /\ (getUserByEmail st email = None -> InsertUser.email insertUser <> email ->
      getUserByEmail st' email = None).
Proof.
  intros Hwf user st'. unfold getUserByEmail, st'.
  rewrite (createUser_values now st insertUser Hwf). fold user.
  split; [intros u H; now apply find_app_some|].
  split; intros Hnone He; rewrite (find_app_none _ _ _ Hnone); cbn.
  - apply String.eqb_eq in He. now rewrite He.
  - apply String.eqb_neq in He. now rewrite He.
Qed.

Lemma createUser_then_getUserByEmail_witness :
  let st := snd (createUser 5 constructor demoUser) in
  let st' := snd (createUser 6 st demoUser) in
  getUserByEmail st' "demo@example.com" = getUserByEmail st "demo@example.com"
  /\ List.length (Js.values (users st')) = 2%nat.
Proof.
  intros st st'. split; [|reflexivity].
  destruct (getUserByEmail st "demo@example.com") as [u|] eqn:E; [|discriminate E].
  apply (createUser_then_getUserByEmail 6 st demoUser "demo@example.com").
  - apply (step_well_formed constructor (CreateUser 5 demoUser)
             well_formed_constructor).
  - exact E.
Defined.

(** X9.  [createMessage] gives the message the value of the message counter
    as id (the counter then advances by one), the time of the call as
    [createdAt] and [read] at [false], copies the fields of the input, and
    stores the message: [getMessage] on the id returns it.  The other
    messages, the users, the items and the two other counters are as
    before. *)
Theorem createMessage_assigns (now : Z) (st : MemStorage)
  (insertMessage : InsertMessage.t) :
  let message := fst (createMessage now st insertMessage) in
  let st' := snd (createMessage now st insertMessage) in
  Message.id message = messageIdCounter st
  /\ messageIdCounter st' = messageIdCounter st + 1
  /\ Message.createdAt message = now
  /\ Message.read message = false
  /\ Message.itemId message = InsertMessage.itemId insertMessage
  /\ Message.fromUserId message = InsertMessage.fromUserId insertMessage
  /\ Message.toUserId message = InsertMessage.toUserId insertMessage
  /\ Message.content message = InsertMessage.content insertMessage
  /\ getMessage st' (Message.id message) = Some message
  /\ (forall id', id' <> Message.id message ->
        getMessage st' id' = getMessage st id')
  /\ users st' = users st /\ items st' = items st
  /\ userIdCounter st' = userIdCounter st
  /\ itemIdCounter st' = itemIdCounter st.
Proof.
  cbn -[Js.set Js.get]. unfold getMessage. cbn -[Js.set Js.get].
  repeat (split; [reflexivity|]).
  split; [apply get_set_same|].
  split; [intros id' Hne; now apply get_set_other|].
  repeat split.
Qed.

(** X10.  [getMessages] returns exactly the messages of which the user is
    the recipient or the sender (a message from the user to the user once),
    sorted by [createdAt], most recent first, the messages of one time in
    the order of their creation. *)
Theorem getMessages_of_user (st : MemStorage) (userId : Z) :
  let kept :=
    filter (fun message =>
              (Message.toUserId message =? userId)
              || (Message.fromUserId message =? userId))%bool
      (Js.values (messages st)) in
  Permutation (getMessages st userId) kept
  /\ StronglySorted (Js.desc Message.createdAt) (getMessages st userId)
  /\ (forall message,
        In message (getMessages st userId)
        <-> In message (Js.values (messages st))
            /\ (Message.toUserId message = userId
                \/ Message.fromUserId message = userId))
  /\ List.length (getMessages st userId) = List.length kept
  /\ (forall t,
        filter (fun message => Message.createdAt message =? t)
          (getMessages st userId)
        = filter (fun message => Message.createdAt message =? t) kept).
Proof.
  cbv zeta. unfold getMessages.
  split; [apply sort_desc_perm|].
  split; [apply sort_desc_sorted|].
  split.
  { intros message. rewrite sort_desc_In, filter_In, orb_true_iff, !Z.eqb_eq.
    reflexivity. }
  split; [apply Permutation_length, sort_desc_perm|].
  intros t. apply sort_desc_stable.
Qed.

(** X11.  [getMessagesByItem] returns exactly the messages about the item,
    sorted by [createdAt], most recent first, the messages of one time in
    the order of their creation; the item need not exist. *)
Theorem getMessagesByItem_of_item (st : MemStorage) (itemId : Z) :
  let kept :=
    filter (fun message => Message.itemId message =? itemId)
      (Js.values (messages st)) in
  Permutation (getMessagesByItem st itemId) kept
  /\ StronglySorted (Js.desc Message.createdAt) (getMessagesByItem st itemId)
  /\ (forall message,
        In message (getMessagesByItem st itemId)
        <-> In message (Js.values (messages st))
            /\ Message.itemId message = itemId)
  /\ (forall t,
        filter (fun message => Message.createdAt message =? t)
          (getMessagesByItem st itemId)
        = filter (fun message => Message.createdAt message =? t) kept).
Proof.
  cbv zeta. unfold getMessagesByItem.
  split; [apply sort_desc_perm|].
  split; [apply sort_desc_sorted|].
  split.
  { intros message. rewrite sort_desc_In, filter_In, Z.eqb_eq. reflexivity. }
  intros t. apply sort_desc_stable.
Qed.

(* ------------------------------------------------------------------ *)
(** * How the operations on items compose *)

Lemma spread_key_twice {A : Type} (a : A) (p q : option A) :
  spread_key (spread_key a p) q
  = spread_key a (match q with Some _ => q | None => p end).
Proof. now destruct q. Qed.

Lemma spread_then_update (item : Item.t) (p q : PartialItem.t) :
  spread (spread item p) q = spread item (then_update p q).
Proof.
  unfold spread, then_update. cbn. f_equal; apply spread_key_twice.
Qed.

Lemma spread_none (item : Item.t) : spread item PartialItem.none = item.
Proof. now destruct item. Qed.

(** X12.  Two updates of an item in a row are the one update that carries
    the keys of both, the second winning on the keys they share: the same
    result and the same store, also on an id that is not there.  The update
    with no key returns the item as it is and leaves the store as it is. *)
Theorem updateItem_composes (st : MemStorage) (id : Z) (p q : PartialItem.t) :
  updateItem (snd (updateItem st id p)) id q = updateItem st id (then_update p q)
  /\ updateItem st id PartialItem.none = (getItem st id, st).
Proof.
  unfold updateItem. split.
  - destruct (getItem st id) as [item|] eqn:E; cbn -[Js.set Js.get].
    + unfold getItem. cbn -[Js.set Js.get]. rewrite get_set_same.
      rewrite set_set, spread_then_update. reflexivity.
    + now rewrite E.
  - destruct (getItem st id) as [item|] eqn:E; [|reflexivity].
    rewrite spread_none. unfold getItem in E.
    rewrite (set_get_same _ _ _ E). now rewrite with_items_same.
Qed.

Lemma remove_remove {V : Type} (m : Js.Map V) (a b : Z) :
  Js.remove (Js.remove m a) b = Js.remove (Js.remove m b) a.
Proof.
  induction m as [|[k v] m IH]; simpl; [reflexivity|].
  destruct (k =? a) eqn:Ea, (k =? b) eqn:Eb; simpl;
    rewrite ?Ea, ?Eb, ?IH; reflexivity.
Qed.

(** X13.  [deleteItem] takes away the entry under the id and nothing else,
    the other items keeping their order.  A second deletion of the same id
    returns [false] and changes nothing; two deletions give the same store
    in either order; and a search after a deletion finds only items that the
    search found before. *)
Theorem deleteItem_composes (st : MemStorage) (id : Z) :
  let st' := snd (deleteItem st id) in
  items st' = filter (fun entry => negb (fst entry =? id)) (items st)
  /\ deleteItem st' id = (false, st')
  /\ (forall id',
        snd (deleteItem st' id') = snd (deleteItem (snd (deleteItem st id')) id))
  /\ (forall tzOffset query options item,
        In item (searchItems tzOffset st' query options) ->
        In item (searchItems tzOffset st query options))
  /\ (forall item, In item (getItems st' None) -> In item (getItems st None)).
Proof.
  cbv zeta.
  assert (Hitems : items (snd (deleteItem st id))
                   = filter (fun entry => negb (fst entry =? id)) (items st)).
  { cbn. apply remove_filter. }
  assert (Hvalues : forall item,
             In item (Js.values (items (snd (deleteItem st id)))) ->
             In item (Js.values (items st))).
  { intros item. rewrite Hitems. unfold Js.values. rewrite !in_map_iff.
    intros (entry & He & Hin). apply filter_In in Hin. exists entry. tauto. }
  split; [exact Hitems|].
  split.
  { unfold deleteItem, Js.delete, Js.has. cbn -[Js.get Js.remove].
    rewrite get_remove_same, (remove_absent _ _ (get_remove_same _ _)).
    reflexivity. }
  split.
  { intros id'. cbn -[Js.remove]. now rewrite remove_remove. }
  split.
  { intros tzOffset query options item.
    rewrite !searchItems_found, !sort_desc_In, !filter_In. intuition. }
  exact Hvalues.
Qed.

(** X14.  [searchItems] with the empty query and the filters [status] and
    [type] alone returns what [getItems] returns for the same [status] and
    [type] without a limit: the two listings agree, item for item and in the
    same order. *)
Theorem searchItems_agrees_with_getItems (tzOffset : Z -> Z) (st : MemStorage)
  (status type : option string) :
  searchItems tzOffset st "" (Some (mkSearchOptions status type None None))
  = getItems st (Some (mkGetItemsOptions status type None None None))
  /\ searchItems tzOffset st "" None
     = getItems st (Some (mkGetItemsOptions None None None None None)).
Proof.
  rewrite !searchItems_found, !getItems_options. cbn.
  split; f_equal; apply filter_ext; intros item; unfold passes; cbn;
    now rewrite ?andb_true_r.
Qed.

(* ------------------------------------------------------------------ *)
(** * Pages *)

Lemma page_firstn_app {A : Type} (n n' : nat) :
  forall l : list A, firstn n l ++ firstn n' (skipn n l) = firstn (n + n') l.
Proof.
  induction n as [|n IH]; intros l; [reflexivity|].
  destruct l as [|x l]; simpl.
  - now rewrite firstn_nil.
  - now rewrite IH.
Qed.

Lemma page_app {A : Type} (l : list A) (offset limit limit' : Z) :
  0 <= offset -> 0 <= limit -> 0 <= limit' ->
  page l offset limit ++ page l (offset + limit) limit'
  = page l offset (limit + limit').
Proof.
  intros Ho Hl Hl'. unfold page.
  rewrite (Z2Nat.inj_add offset limit Ho Hl).
  rewrite (Z2Nat.inj_add limit limit' Hl Hl').
  rewrite (Nat.add_comm (Z.to_nat offset)), <- skipn_skipn.
  apply page_firstn_app.
Qed.

Lemma page_length {A : Type} (l : list A) (offset limit : Z) :
  0 <= offset -> 0 <= limit ->
  Z.of_nat (List.length (page l offset limit))
  = Z.min limit (Z.max 0 (Z.of_nat (List.length l) - offset)).
Proof.
  intros Ho Hl. unfold page. rewrite length_firstn, length_skipn. lia.
Qed.

Lemma getItems_page (st : MemStorage) (status type : option string)
  (userId : option Z) (offset limit : Z) :
  0 <= offset -> 0 < limit ->
  getItems st
    (Some (mkGetItemsOptions status type userId
             (Some (Js.Num limit)) (Some (Js.Num offset))))
  = page (getItems st (Some (mkGetItemsOptions status type userId None None)))
      offset limit.
Proof.
  intros Ho Hl. rewrite !getItems_options. cbn.
  destruct (limit =? 0) eqn:E; [apply Z.eqb_eq in E; lia|]. cbn.
  apply slice_page; lia.
Qed.

(** X15.  The pages of [getItems], for an offset that is not negative and
    positive limits: a page is the [limit] items that follow the first
    [offset] ones of the listing without a limit; it has [limit] items, or
    the fewer that are left; the page that follows it, put after it, makes
    the page of the two limits added, so successive pages neither repeat nor
    skip an item. *)
Theorem getItems_pages_tile (st : MemStorage) (status type : option string)
  (userId : option Z) (offset limit limit' : Z) :
  0 <= offset -> 0 < limit -> 0 < limit' ->
  let all := getItems st (Some (mkGetItemsOptions status type userId None None)) in
  let get offset limit :=
    getItems st
      (Some (mkGetItemsOptions status type userId
               (Some (Js.Num limit)) (Some (Js.Num offset)))) in
  get offset limit = page all offset limit
  /\ Z.of_nat (List.length (get offset limit))
     = Z.min limit (Z.max 0 (Z.of_nat (List.length all) - offset))
  /\ get offset limit ++ get (offset + limit) limit' = get offset (limit + limit')
  /\ (Z.of_nat (List.length all) <= limit -> get 0 limit = all).
Proof.
  intros Ho Hl Hl' all get. unfold get.
  rewrite !getItems_page by lia. fold all.
  split; [reflexivity|].
  split; [apply page_length; lia|].
  split; [apply page_app; lia|].
  intros Hall. unfold page. cbn [Z.to_nat skipn].
  apply firstn_all2. lia.
Qed.

Lemma getItems_pages_tile_witness :
  map Item.id
    (getItems five
       (Some (mkGetItemsOptions None None None (Some (Js.Num 2)) (Some (Js.Num 0))))
     ++ getItems five
          (Some (mkGetItemsOptions None None None (Some (Js.Num 2)) (Some (Js.Num 2)))))
  = [5; 4; 3; 2].
Proof.
  destruct (getItems_pages_tile five None None None 0 2 2) as (_ & _ & Happ & _);
    try lia.
  cbn [Z.add] in Happ. rewrite Happ. vm_compute. reflexivity.
Defined.

(** X16.  [getItems] does not refuse negative numbers; it hands them to
    [slice], which counts them from the end.  With no offset, a negative
    [limit] gives the whole listing but its [-limit] last items, the oldest.
    A negative [offset] no further from the end than the listing is long, and
    a positive [limit] that does not reach the end, give the [limit] items
    that start [-offset] items before the end. *)
Theorem getItems_negative_counts_from_end (st : MemStorage)
  (status type : option string) (userId : option Z) (offset limit : Z) :
  let all := getItems st (Some (mkGetItemsOptions status type userId None None)) in
  let len := Z.of_nat (List.length all) in
  (limit < 0 ->
   getItems st
     (Some (mkGetItemsOptions status type userId (Some (Js.Num limit)) None))
   = firstn (Z.to_nat (len + limit)) all)
  /\ (offset < 0 -> 0 < limit -> offset + limit < 0 -> - offset <= len ->
      getItems st
        (Some (mkGetItemsOptions status type userId
                 (Some (Js.Num limit)) (Some (Js.Num offset))))
      = page all (len + offset) limit).
Proof.
  intros all len.
  assert (Hget : forall lim off, lim <> 0 ->
             getItems st
               (Some (mkGetItemsOptions status type userId (Some (Js.Num lim)) off))
             = Js.slice all (Js.or_zero off) (Js.or_zero off + lim)).
  { intros lim off Hne. unfold all. rewrite !getItems_options. cbn.
    apply Z.eqb_neq in Hne. now rewrite Hne. }
  split.
  - intros Hl. rewrite Hget by lia. cbn [Js.or_zero].
    unfold Js.slice, Js.rel_index. fold len.
    rewrite Z.add_0_l. change (0 <? 0) with false. cbv iota.
    destruct (limit <? 0) eqn:E; [|apply Z.ltb_ge in E; lia].
    rewrite Z.min_l by lia. cbn [Z.to_nat skipn].
    f_equal. lia.
  - intros Ho Hl Hsum Hlen. rewrite Hget by lia. cbn [Js.or_zero].
    unfold Js.slice, Js.rel_index, page. fold len.
    destruct (offset <? 0) eqn:E1; [|apply Z.ltb_ge in E1; lia].
    destruct (offset + limit <? 0) eqn:E2; [|apply Z.ltb_ge in E2; lia].
    f_equal; [|f_equal]; lia.
Qed.

Lemma getItems_negative_counts_from_end_witness :
  map Item.id
    (getItems five
       (Some (mkGetItemsOptions None None None (Some (Js.Num (-2))) None)))
  = [5; 4; 3]
  /\ map Item.id
       (getItems five
          (Some (mkGetItemsOptions None None None (Some (Js.Num 1))
                   (Some (Js.Num (-3))))))
     = [3].
Proof.
  destruct (getItems_negative_counts_from_end five None None None (-3) (-2))
    as (Hlimit & _).
  destruct (getItems_negative_counts_from_end five None None None (-3) 1)
    as (_ & Hoffset).
  split.
  - rewrite Hlimit by lia. vm_compute. reflexivity.
  - rewrite Hoffset; [vm_compute; reflexivity | lia | lia | lia |].
    vm_compute. discriminate.
Defined.

(** X17.  [getItems] with options and no limit keeps the items of one
    [createdAt] in the order of the map, that of their insertion: the sort
    moves no item past another of the same time.  [searchItems] does the
    same. *)
Theorem listings_keep_insertion_order_among_equals (st : MemStorage)
  (status type : option string) (userId : option Z) (offset : option Js.number)
  (t : Z) :
  filter (fun item => Item.createdAt item =? t)
    (getItems st (Some (mkGetItemsOptions status type userId None offset)))
  = filter (fun item => Item.createdAt item =? t)
      (filter (passes (mkGetItemsOptions status type userId None offset))
         (Js.values (items st)))
  /\ forall tzOffset query options,
       filter (fun item => Item.createdAt item =? t)
         (searchItems tzOffset st query options)
       = filter (fun item => Item.createdAt item =? t)
           (filter (found tzOffset query options) (Js.values (items st))).
Proof.
  split.
  - rewrite getItems_options. cbn. apply sort_desc_stable.
  - intros. rewrite searchItems_found. apply sort_desc_stable.
Qed.

(* ------------------------------------------------------------------ *)
(** * The sample data *)

Lemma set_not_empty {V : Type} (m : Js.Map V) (k : Z) (v : V) : Js.set m k v <> [].
Proof. destruct m as [|[k' v'] m]; simpl; [|destruct (k' =? k)]; discriminate. Qed.

Lemma initDemoData_guard (now : Z) (st : MemStorage) :
  items st <> [] -> initDemoData now st = st.
Proof.
  unfold initDemoData, getItems, Js.values.
  destruct (items st); [contradiction | reflexivity].
Qed.

Lemma initDemoData_not_empty (now : Z) (st : MemStorage) :
  items (initDemoData now st) <> [].
Proof.
  destruct (items st) as [|entry m] eqn:E.
  - unfold initDemoData, getItems, Js.values. rewrite E.
    cbn -[Js.set]. apply set_not_empty.
  - rewrite initDemoData_guard; rewrite E; discriminate.
Qed.

(** X18.  [initDemoData] looks at the items, not at the users.  On a store
    that has an item it does nothing.  On a store that has none it creates
    the user [demouser], whether or not a user of that name is there, and
    the three sample items for that user, under the three next item ids,
    each with [views] at 0.  Run a second time it does nothing. *)
Theorem initDemoData_seeds_once (now : Z) (st : MemStorage) :
  (items st <> [] -> initDemoData now st = st)
  /\ (items st = [] ->
      let st' := initDemoData now st in
      map (fun item =>
             (Item.id item, Item.name item, Item.userId item, Item.views item))
        (getItems st' None)
      = [ (itemIdCounter st, "Navy Blue Backpack"%string,
           Js.Val (userIdCounter st), 0);
          (itemIdCounter st + 1, "Car Keys with Red Keychain"%string,
           Js.Val (userIdCounter st), 0);
          (itemIdCounter st + 1 + 1, "iPad Pro with Black Case"%string,
           Js.Val (userIdCounter st), 0) ]
      /\ getUser st' (userIdCounter st)
         = Some (User.mk (userIdCounter st) "demouser" "password"
                   "demo@example.com" "Demo User" now)
      /\ userIdCounter st' = userIdCounter st + 1
      /\ itemIdCounter st' = itemIdCounter st + 1 + 1 + 1
      /\ messages st' = messages st)
  /\ (forall now', initDemoData now' (initDemoData now st) = initDemoData now st).
Proof.
  split; [apply initDemoData_guard|].
  split; [|intros now'; apply initDemoData_guard, initDemoData_not_empty].
  intros Hempty. cbv zeta.
  unfold initDemoData, getItems, Js.values. rewrite Hempty.
  cbn -[Js.set Js.get Z.add Z.sub Z.mul].
  rewrite Hempty. unfold getUser. cbn -[Js.get Js.set Z.add Z.sub Z.mul].
  rewrite get_set_same.
  assert (E1 : (itemIdCounter st =? itemIdCounter st + 1) = false)
    by (apply Z.eqb_neq; lia).
  assert (E2 : (itemIdCounter st =? itemIdCounter st + 1 + 1) = false)
    by (apply Z.eqb_neq; lia).
  assert (E3 : (itemIdCounter st + 1 =? itemIdCounter st + 1 + 1) = false)
    by (apply Z.eqb_neq; lia).
  cbn -[Z.add Z.sub Z.mul Z.eqb]. rewrite E1. cbn -[Z.add Z.sub Z.mul Z.eqb].
  rewrite E2. cbn -[Z.add Z.sub Z.mul Z.eqb]. rewrite E3.
  cbn -[Z.add Z.sub Z.mul Z.eqb].
  repeat split.
Qed.

Lemma initDemoData_seeds_once_witness :
  map Item.id (getItems demo None) = [1; 2; 3]
  /\ initDemoData 1800000000000 demo = demo.
Proof.
  destruct (initDemoData_seeds_once 1700000000000 constructor) as (_ & Hseed & Honce).
  split.
  - destruct (Hseed eq_refl) as (Hitems & _).
    apply (f_equal (map (fun x => fst (fst (fst x))))) in Hitems.
    rewrite map_map in Hitems. exact Hitems.
  - apply Honce.
Defined.

Lemma incrementItemViews_adds_one_aux (st : MemStorage) (id id' : Z) :
  id' <> id ->
  getItem (incrementItemViews st id) id' = getItem st id'
  /\ users (incrementItemViews st id) = users st.
Proof.
  intros Hne. unfold incrementItemViews.
  destruct (getItem st id); [|now split].
  unfold getItem. cbn -[Js.set Js.get]. split; [now apply get_set_other | reflexivity].
Qed.

(* ------------------------------------------------------------------ *)
(** * The HTTP layer *)

(** X19.  [GET /api/items/:id].  When [parseInt] of the parameter is not a
    number, or is the id of no item, the answer is 404 and the store is as it
    was.  When it is the key of an item that carries that id, the view is
    counted and the answer is 200 with the item after the count: [views] one
    more, the rest the same.  The handler counts the view on [item.id], so
    for an item that an update has given another id than its key, the view
    goes to that other id and the answer is the item as it was. *)
Theorem get_api_items_id_counts_the_view (st : MemStorage) (id : string) :
  (Js.on_number (Js.parseInt id) None (getItem st) = None ->
   Http.get_api_items_id st id
   = (Http.mkResponse 404 (Http.JsonError "Item not found"), st))
  /\ (forall n item,
        Js.parseInt id = Js.Num n -> getItem st n = Some item ->
        Item.id item = n ->
        exists item',
          Http.get_api_items_id st id
          = (Http.mkResponse 200 (Http.JsonItem (Some item')),
             incrementItemViews st n)
          /\ Item.views item' = Item.views item + 1
          /\ same_but_views item' item)
  /\ (forall n item,
        Js.parseInt id = Js.Num n -> getItem st n = Some item ->
        Item.id item <> n ->
        Http.get_api_items_id st id
        = (Http.mkResponse 200 (Http.JsonItem (Some item)),
           incrementItemViews st (Item.id item))).
Proof.
  unfold Http.get_api_items_id.
  split; [now intros ->|].
  split.
  - intros n item -> Hget Hid. cbn [Js.on_number]. rewrite Hget, Hid.
    exists (add_view item).
    rewrite (incrementItemViews_get st n item Hget).
    split; [reflexivity|]. split; [reflexivity|].
    apply same_but_views_add_view, same_but_views_refl.
  - intros n item -> Hget Hid. cbn [Js.on_number]. rewrite Hget.
    destruct (incrementItemViews_adds_one_aux st (Item.id item) n) as [H _];
      [congruence|].
    now rewrite H, Hget.
Qed.

Lemma get_api_items_id_counts_the_view_witness :
  exists item',
    fst (Http.get_api_items_id demo "2abc")
    = Http.mkResponse 200 (Http.JsonItem (Some item'))
    /\ Item.views item' = 1
    /\ fst (Http.get_api_items_id demo "abc")
       = Http.mkResponse 404 (Http.JsonError "Item not found").
Proof.
  destruct (get_api_items_id_counts_the_view demo "2abc") as (_ & Hfound & _).
  destruct (get_api_items_id_counts_the_view demo "abc") as (Hmissing & _).
  destruct (getItem demo 2) as [item|] eqn:E; [|discriminate E].
  destruct (Hfound 2 item eq_refl E) as (item' & Hr & Hv & _).
  - injection E as <-. reflexivity.
  - exists item'. rewrite Hr, Hmissing by reflexivity.
    split; [reflexivity|]. split; [|reflexivity].
    rewrite Hv. injection E as <-. reflexivity.
Defined.

(** X20.  [DELETE /api/items/:id] answers 204 and deletes the item when
    [parseInt] of the parameter is the id of an item, and answers 404 and
    leaves the store as it was otherwise.  The same request a second time is
    always answered by 404. *)
Theorem delete_api_items_id_once (st : MemStorage) (id : string) :
  (forall n item,
      Js.parseInt id = Js.Num n -> getItem st n = Some item ->
      Http.delete_api_items_id st id
      = (Http.mkResponse 204 Http.NoBody, snd (deleteItem st n)))
  /\ (Js.on_number (Js.parseInt id) None (getItem st) = None ->
      Http.delete_api_items_id st id
      = (Http.mkResponse 404 (Http.JsonError "Item not found"), st))
  /\ fst (Http.delete_api_items_id (snd (Http.delete_api_items_id st id)) id)
     = Http.mkResponse 404 (Http.JsonError "Item not found").
Proof.
  assert (Hmissing : forall st0,
             Js.on_number (Js.parseInt id) None (getItem st0) = None ->
             Http.delete_api_items_id st0 id
             = (Http.mkResponse 404 (Http.JsonError "Item not found"), st0)).
  { intros st0. unfold Http.delete_api_items_id.
    destruct (Js.parseInt id) as [n|]; cbn [Js.on_number]; [|reflexivity].
    intros H. unfold deleteItem, Js.delete, Js.has. unfold getItem in H.
    rewrite H. cbn [negb]. rewrite (remove_absent _ _ H).
    now rewrite with_items_same. }
  assert (Hfound : forall n item,
             Js.parseInt id = Js.Num n -> getItem st n = Some item ->
             Http.delete_api_items_id st id
             = (Http.mkResponse 204 Http.NoBody, snd (deleteItem st n))).
  { intros n item Hn Hget. unfold Http.delete_api_items_id.
    rewrite Hn. cbn [Js.on_number].
    unfold deleteItem, Js.delete, Js.has. unfold getItem in Hget.
    now rewrite Hget. }
  split; [exact Hfound|]. split; [apply Hmissing|].
  destruct (Js.on_number (Js.parseInt id) None (getItem st)) as [item|] eqn:E.
  - destruct (Js.parseInt id) as [n|] eqn:En; cbn [Js.on_number] in E;
      [|discriminate].
    rewrite (Hfound n item eq_refl E). cbn [snd].
    rewrite Hmissing; [reflexivity|].
    cbn [Js.on_number]. unfold getItem. cbn -[Js.get Js.remove].
    apply get_remove_same.
  - rewrite (Hmissing st E). cbn [snd]. now rewrite (Hmissing st E).
Qed.

Lemma delete_api_items_id_once_witness :
  fst (Http.delete_api_items_id demo "3") = Http.mkResponse 204 Http.NoBody
  /\ getItem (snd (Http.delete_api_items_id demo "3")) 3 = None
  /\ fst (Http.delete_api_items_id demo "three")
     = Http.mkResponse 404 (Http.JsonError "Item not found").
Proof.
  destruct (delete_api_items_id_once demo "3") as (Hfound & _).
  destruct (delete_api_items_id_once demo "three") as (_ & Hmissing & _).
  destruct (getItem demo 3) as [item|] eqn:E; [|discriminate E].
  rewrite (Hfound 3 item eq_refl E), Hmissing by reflexivity.
  repeat split.
Defined.

Lemma getUserByEmail_None_emails (st : MemStorage) (email : string) :
  getUserByEmail st email = None <-> ~ In email (emails st).
Proof.
  unfold getUserByEmail, emails. rewrite find_None_iff, in_map_iff. split.
  - intros H (u & He & Hu). specialize (H u Hu).
    apply String.eqb_neq in H. contradiction.
  - intros H u Hu. apply String.eqb_neq. intros He. apply H. now exists u.
Qed.

(** X21.  [POST /api/users] keeps the addresses of the users distinct: on a
    store that a history builds and in which no two users share an address,
    the request is answered by 409, the store unchanged, when a user has the
    address already, by 400, the store unchanged, when the body does not
    validate, and by 201 otherwise, the new user appended; in each case no
    two users of the store after the request share an address, and the store
    is again one that a history builds. *)
Theorem post_api_users_keeps_emails_distinct (now : Z) (st : MemStorage)
  (userData : Http.Parse InsertUser.t) :
  well_formed st ->
  NoDup (emails st) ->
  let response := fst (Http.post_api_users now st userData) in
  let st' := snd (Http.post_api_users now st userData) in
  NoDup (emails st')
  /\ well_formed st'
  /\ (forall data, userData = Http.Parsed data ->
        In (InsertUser.email data) (emails st) ->
        Http.status response = 409 /\ st' = st)
  /\ (forall data, userData = Http.Parsed data ->
        ~ In (InsertUser.email data) (emails st) ->
        response
        = Http.mkResponse 201
            (Http.JsonUser (Http.withoutPassword (fst (createUser now st data))))
        /\ st' = snd (createUser now st data)
        /\ emails st' = emails st ++ [InsertUser.email data])
  /\ (forall validationMessage, userData = Http.ZodError validationMessage ->
        response = Http.mkResponse 400 (Http.JsonError validationMessage)
        /\ st' = st).
Proof.
  intros Hwf Hnodup. cbv zeta.
  assert (Hemails : forall data,
             emails (snd (createUser now st data))
             = emails st ++ [InsertUser.email data]).
  { intros data. unfold emails.
    rewrite (createUser_values now st data Hwf), map_app. reflexivity. }
  unfold Http.post_api_users.
  destruct userData as [data|message].
  - destruct (getUserByEmail st (InsertUser.email data)) as [existingUser|] eqn:E.
    + cbn [fst snd].
      split; [exact Hnodup|]. split; [exact Hwf|].
      split; [intros data' [= <-] _; now split|].
      split; [|intros message' H; discriminate H].
      intros data' [= <-] Hnin. apply getUserByEmail_None_emails in Hnin.
      congruence.
    + pose proof (proj1 (getUserByEmail_None_emails _ _) E) as Hnin.
      change (let (user, st') := createUser now st data in
              (Http.mkResponse 201 (Http.JsonUser (Http.withoutPassword user)), st'))
        with (Http.mkResponse 201
                (Http.JsonUser (Http.withoutPassword (fst (createUser now st data)))),
              snd (createUser now st data)).
      cbn [fst snd].
      split.
      { rewrite Hemails. apply NoDup_app; [exact Hnodup | repeat constructor; intros [] |].
        intros e He [<- | []]. contradiction. }
      split; [apply (step_well_formed st (CreateUser now data) Hwf)|].
      split; [intros data' [= <-] Hin; contradiction|].
      split; [|intros message' H; discriminate H].
      intros data' [= <-] _. split; [reflexivity|]. split; [reflexivity|].
      apply Hemails.
  - cbn [fst snd].
    split; [exact Hnodup|]. split; [exact Hwf|].
    split; [intros data H; discriminate H|].
    split; [intros data H; discriminate H|].
    intros message' [= <-]. now split.
Qed.

Lemma post_api_users_keeps_emails_distinct_witness :
  let st := snd (Http.post_api_users 5 constructor (Http.Parsed demoUser)) in
  emails st = ["demo@example.com"%string]
  /\ Http.status (fst (Http.post_api_users 6 st (Http.Parsed demoUser))) = 409
  /\ NoDup (emails (snd (Http.post_api_users 6 st (Http.Parsed demoUser)))).
Proof.
  intros st.
  assert (Hwf : well_formed st)
    by apply (step_well_formed constructor (CreateUser 5 demoUser)
                well_formed_constructor).
  assert (Hnodup : NoDup (emails st)) by (repeat constructor; intros []).
  destruct (post_api_users_keeps_emails_distinct 6 st (Http.Parsed demoUser)
              Hwf Hnodup) as (Hn & _ & Hconflict & _).
  split; [reflexivity|].
  split; [|exact Hn].
  apply (Hconflict demoUser eq_refl). now left.
Defined.

(** X22.  [GET /api/messages] answers 400 exactly when the parameter
    [userId] is absent or [parseInt] of it is not a number or is 0, and
    otherwise answers 200 with the messages of the user. *)
Theorem get_api_messages_requires_userId (st : MemStorage) (userId : option string) :
  (Http.status (Http.get_api_messages st userId) = 400
   <-> userId = None
       \/ exists s, userId = Some s
                    /\ (Js.parseInt s = Js.NaN \/ Js.parseInt s = Js.Num 0))
  /\ (userId = None
      \/ (exists s, userId = Some s
                    /\ (Js.parseInt s = Js.NaN \/ Js.parseInt s = Js.Num 0)) ->
      Http.get_api_messages st userId
      = Http.mkResponse 400
          (Http.JsonError "userId query parameter is required"))
  /\ (forall s n, userId = Some s -> Js.parseInt s = Js.Num n -> n <> 0 ->
        Http.get_api_messages st userId
        = Http.mkResponse 200 (Http.JsonMessages (getMessages st n))).
Proof.
  unfold Http.get_api_messages.
  destruct userId as [s|].
  2: { cbn. split; [split; [intros _; now left | reflexivity]|].
       split; [reflexivity|]. intros s n H. discriminate H. }
  destruct (Js.parseInt s) as [n|] eqn:E; cbn [Js.falsy_number Js.on_number].
  - destruct (Z.eqb_spec n 0) as [->|Hne]; cbn [Http.status].
    + split; [split; [intros _; right; exists s; auto | reflexivity]|].
      split; [reflexivity|].
      intros s' n' [= <-] Hp H. rewrite E in Hp. injection Hp as <-.
      contradiction.
    + assert (Hno : ~ (Some s = None
                       \/ exists s', Some s = Some s'
                                     /\ (Js.parseInt s' = Js.NaN
                                         \/ Js.parseInt s' = Js.Num 0))).
      { intros [H | (s' & [= <-] & [H | H])]; [discriminate H | |];
          rewrite E in H; congruence. }
      split; [split; [discriminate | intros H; contradiction]|].
      split; [intros H; contradiction|].
      intros s' n' [= <-] Hp _. rewrite E in Hp. injection Hp as <-.
      reflexivity.
  - cbn [Http.status].
    split; [split; [intros _; right; exists s; auto | reflexivity]|].
    split; [reflexivity|].
    intros s' n' [= <-] Hp. rewrite E in Hp. discriminate Hp.
Qed.

Lemma get_api_messages_requires_userId_witness :
  Http.status (Http.get_api_messages demo (Some "0"%string)) = 400
  /\ Http.status (Http.get_api_messages demo (Some "1"%string)) = 200.
Proof.
  destruct (get_api_messages_requires_userId demo (Some "0"%string)) as (H400 & _).
  destruct (get_api_messages_requires_userId demo (Some "1"%string)) as (_ & _ & H200).
  split.
  - apply H400. right. exists "0"%string. split; [reflexivity|]. now right.
  - rewrite (H200 "1"%string 1 eq_refl eq_refl); [reflexivity | discriminate].
Defined.

(** X23.  [GET /api/items].  With neither [limit] nor [offset] the answer
    is the ten most recent of the items that pass the filters.  A [limit]
    whose [parseInt] is not a number or is 0 (the empty string, a word, 0)
    takes the cap away: the answer is every item that passes the filters,
    whatever the offset.  A [limit] and an [offset] that read as a positive
    and a non-negative number give the page.  An empty [status] or [type] is
    no filter. *)
Theorem get_api_items_defaults_and_limits (st : MemStorage)
  (status type : option string) :
  let all :=
    getItems st
      (Some (mkGetItemsOptions
               (if Js.truthy_string status then status else None)
               (if Js.truthy_string type then type else None)
               None None None)) in
  Http.get_api_items st status type None None
  = Http.mkResponse 200 (Http.JsonItems (firstn 10 all))
  /\ (forall limit offset,
        Js.parseInt limit = Js.NaN \/ Js.parseInt limit = Js.Num 0 ->
        Http.get_api_items st status type (Some limit) offset
        = Http.mkResponse 200 (Http.JsonItems all))
  /\ (forall limit offset n o,
        Js.parseInt limit = Js.Num n -> Js.parseInt offset = Js.Num o ->
        0 < n -> 0 <= o ->
        Http.get_api_items st status type (Some limit) (Some offset)
        = Http.mkResponse 200 (Http.JsonItems (page all o n)))
  /\ (forall limit offset,
        Http.get_api_items st (Some ""%string) type limit offset
        = Http.get_api_items st None type limit offset)
  /\ (forall limit offset,
        Http.get_api_items st status (Some ""%string) limit offset
        = Http.get_api_items st status None limit offset).
Proof.
  cbv zeta. unfold Http.get_api_items.
  split.
  { rewrite getItems_page by lia. reflexivity. }
  split.
  { intros limit offset H. do 2 f_equal.
    rewrite !getItems_options. cbn.
    destruct H as [-> | ->]; reflexivity. }
  split.
  { intros limit offset n o -> -> Hn Ho. do 2 f_equal.
    now apply getItems_page. }
  split; reflexivity.
Qed.

Lemma get_api_items_defaults_and_limits_witness :
  Http.get_api_items five None None (Some "abc"%string) (Some "3"%string)
  = Http.get_api_items five None None (Some "0"%string) None
  /\ Http.get_api_items five None None (Some "2"%string) (Some "1"%string)
     = Http.mkResponse 200 (Http.JsonItems (getItems five (Some limit2offset1))).
Proof.
  destruct (get_api_items_defaults_and_limits five None None)
    as (_ & Hall & Hpage & _).
  split.
  - rewrite (Hall "abc"%string (Some "3"%string)) by (now left).
    rewrite (Hall "0"%string None) by (now right). reflexivity.
  - rewrite (Hpage "2"%string "1"%string 2 1 eq_refl eq_refl) by lia.
    vm_compute. reflexivity.
Defined.

Lemma set_read_twice (m : Message.t) : set_read (set_read m) = set_read m.
Proof. reflexivity. Qed.

(** X24.  [PATCH /api/messages/:id/read] answers 204 and marks the message
    as read when [parseInt] of the parameter is the id of a message, and
    answers 404 and leaves the store as it was otherwise.  The request is
    idempotent: sent again, it gets the same answer and leaves the store as
    the first request left it. *)
Theorem patch_api_messages_id_read_idempotent (st : MemStorage) (id : string) :
  (forall n m,
      Js.parseInt id = Js.Num n -> getMessage st n = Some m ->
      Http.patch_api_messages_id_read st id
      = (Http.mkResponse 204 Http.NoBody, snd (markMessageAsRead st n))
      /\ getMessage (snd (Http.patch_api_messages_id_read st id)) n
         = Some (set_read m))
  /\ (Js.on_number (Js.parseInt id) None (getMessage st) = None ->
      Http.patch_api_messages_id_read st id
      = (Http.mkResponse 404 (Http.JsonError "Message not found"), st))
  /\ Http.patch_api_messages_id_read
       (snd (Http.patch_api_messages_id_read st id)) id
     = Http.patch_api_messages_id_read st id.
Proof.
  assert (Hmissing : forall st0,
             Js.on_number (Js.parseInt id) None (getMessage st0) = None ->
             Http.patch_api_messages_id_read st0 id
             = (Http.mkResponse 404 (Http.JsonError "Message not found"), st0)).
  { intros st0. unfold Http.patch_api_messages_id_read.
    destruct (Js.parseInt id) as [n|]; cbn [Js.on_number]; [|reflexivity].
    intros H. unfold markMessageAsRead. now rewrite H. }
  assert (Hfound : forall st0 n m,
             Js.parseInt id = Js.Num n -> getMessage st0 n = Some m ->
             Http.patch_api_messages_id_read st0 id
             = (Http.mkResponse 204 Http.NoBody,
                with_messages st0 (Js.set (messages st0) n (set_read m)))).
  { intros st0 n m Hn Hget. unfold Http.patch_api_messages_id_read.
    rewrite Hn. cbn [Js.on_number]. unfold markMessageAsRead. now rewrite Hget. }
  split.
  { intros n m Hn Hget. rewrite (Hfound st n m Hn Hget).
    unfold markMessageAsRead. rewrite Hget. cbn [snd].
    split; [reflexivity|]. unfold getMessage. cbn -[Js.set Js.get].
    apply get_set_same. }
  split; [apply Hmissing|].
  destruct (Js.on_number (Js.parseInt id) None (getMessage st)) as [m|] eqn:E.
  - destruct (Js.parseInt id) as [n|] eqn:En; cbn [Js.on_number] in E;
      [|discriminate].
    rewrite (Hfound st n m eq_refl E). cbn [snd].
    rewrite (Hfound _ n (set_read m) eq_refl).
    + cbn -[Js.set]. now rewrite set_set, set_read_twice.
    + unfold getMessage. cbn -[Js.set Js.get]. apply get_set_same.
  - rewrite (Hmissing st E). cbn [snd]. apply (Hmissing st E).
Qed.

Lemma patch_api_messages_id_read_idempotent_witness :
  let st := snd (createMessage 5 constructor hello) in
  fst (Http.patch_api_messages_id_read st "1") = Http.mkResponse 204 Http.NoBody
  /\ fst (Http.patch_api_messages_id_read st "2")
     = Http.mkResponse 404 (Http.JsonError "Message not found").
Proof.
  intros st.
  destruct (patch_api_messages_id_read_idempotent st "1") as (Hfound & _).
  destruct (patch_api_messages_id_read_idempotent st "2") as (_ & Hmissing & _).
  destruct (getMessage st 1) as [m|] eqn:E; [|discriminate E].
  destruct (Hfound 1 m eq_refl E) as [Hr _].
  rewrite Hr, Hmissing by reflexivity. split; reflexivity.
Defined.






(* ------------------------------------------------------------------ *)
(** * Listings after a creation and after a view *)

Lemma sort_desc_latest_last {A : Type} (key : A -> Z) (l : list A) (x : A) :
  Forall (fun y => key y < key x) l ->
  Js.sort_desc key (l ++ [x]) = x :: Js.sort_desc key l.
Proof.
  induction 1 as [|y l Hy Hl IH]; [reflexivity|].
  simpl. rewrite IH. simpl.
  apply Z.ltb_lt in Hy. now rewrite Hy.
Qed.

Lemma createItem_values (now : Z) (st : MemStorage) (insertItem : InsertItem.t) :
  well_formed st ->
  Js.values (items (snd (createItem now st insertItem)))
  = Js.values (items st) ++ [fst (createItem now st insertItem)].
Proof.
  intros (_ & _ & [_ Hr] & _). cbn -[Js.set Js.values].
  apply values_set_absent. apply (get_below _ _ _ Hr). lia.
Qed.

(** X26.  In a store that a history builds, an item created at a time later
    than the [createdAt] of every item of the store comes first in the
    listing of [getItems] with options and no filter, the items that were
    there following in their former order; without options it comes last,
    the listing being in the order of insertion. *)
Theorem createItem_heads_the_listing (now : Z) (st : MemStorage)
  (insertItem : InsertItem.t) :
  well_formed st ->
  Forall (fun item => Item.createdAt item < now) (Js.values (items st)) ->
  let item := fst (createItem now st insertItem) in
  let st' := snd (createItem now st insertItem) in
  let all := Some (mkGetItemsOptions None None None None None) in
  getItems st' all = item :: getItems st all
  /\ getItems st' None = getItems st None ++ [item].
Proof.
  intros Hwf Hnow. cbv zeta.
  split.
  - rewrite !getItems_options. cbn -[createItem].
    rewrite !(filter_ext _ (fun _ => true)), !filter_true
      by (intros; reflexivity).
    rewrite (createItem_values now st insertItem Hwf).
    now apply sort_desc_latest_last.
  - unfold getItems. now apply createItem_values.
Qed.

Lemma createItem_heads_the_listing_witness :
  map Item.id
    (getItems (snd (createItem 1700000000009 demo itemAX))
       (Some (mkGetItemsOptions None None None None None)))
  = [4; 3; 2; 1].
Proof.
  destruct (createItem_heads_the_listing 1700000000009 demo itemAX) as [Hhead _].
  - apply (run_well_formed
             [CreateUser 1700000000000 demoUser;
              CreateItem 1700000000001 (nth 0 (sampleItems 1700000000000 1) itemAX);
              CreateItem 1700000000002 (nth 1 (sampleItems 1700000000000 1) itemAX);
              CreateItem 1700000000003 (nth 2 (sampleItems 1700000000000 1) itemAX)]
             constructor well_formed_constructor).
  - repeat constructor.
  - rewrite Hhead. vm_compute. reflexivity.
Defined.

Section RelatedLists.
Context {A : Type} (R : A -> A -> Prop).

Lemma Forall2_filter_related (p : A -> bool) (l l' : list A) :
  (forall a b, R a b -> p a = p b) ->
  Forall2 R l l' -> Forall2 R (filter p l) (filter p l').
Proof.
  intros Hp. induction 1 as [|a b l l' Hab Hl IH]; simpl; [constructor|].
  rewrite (Hp a b Hab). destruct (p b); [now constructor | exact IH].
Qed.

Lemma Forall2_insert_related (key : A -> Z) (x x' : A) (l l' : list A) :
  (forall a b, R a b -> key a = key b) ->
  R x x' -> Forall2 R l l' ->
  Forall2 R (Js.insert_desc key x l) (Js.insert_desc key x' l').
Proof.
  intros Hk Hx. induction 1 as [|a b l l' Hab Hl IH]; simpl.
  - now repeat constructor.
  - rewrite (Hk x x' Hx), (Hk a b Hab).
    destruct (key x' <? key b); repeat constructor; assumption.
Qed.

Lemma Forall2_sort_related (key : A -> Z) (l l' : list A) :
  (forall a b, R a b -> key a = key b) ->
  Forall2 R l l' -> Forall2 R (Js.sort_desc key l) (Js.sort_desc key l').
Proof.
  intros Hk. induction 1 as [|a b l l' Hab Hl IH]; simpl; [constructor|].
  now apply Forall2_insert_related.
Qed.

Lemma Forall2_firstn_related (n : nat) :
  forall l l' : list A, Forall2 R l l' -> Forall2 R (firstn n l) (firstn n l').
Proof.
  induction n as [|n IH]; intros l l' H; [constructor|].
  destruct H; simpl; constructor; auto.
Qed.

Lemma Forall2_skipn_related (n : nat) :
  forall l l' : list A, Forall2 R l l' -> Forall2 R (skipn n l) (skipn n l').
Proof.
  induction n as [|n IH]; intros l l' H; [exact H|].
  destruct H; simpl; [constructor | auto].
Qed.

Lemma Forall2_slice_related (l l' : list A) (start stop : Z) :
  Forall2 R l l' -> Forall2 R (Js.slice l start stop) (Js.slice l' start stop).
Proof.
  intros H. unfold Js.slice. rewrite (Forall2_length H).
  now apply Forall2_firstn_related, Forall2_skipn_related.
Qed.
End RelatedLists.

Lemma same_or_viewed_refl (item : Item.t) : same_or_viewed item item.
Proof. split; [apply same_but_views_refl | now left]. Qed.

Lemma incrementItemViews_values (st : MemStorage) (id : Z) :
  Forall2 same_or_viewed
    (Js.values (items (incrementItemViews st id))) (Js.values (items st)).
Proof.
  assert (Hrefl : forall l : list Item.t, Forall2 same_or_viewed l l).
  { induction l; constructor; [apply same_or_viewed_refl | assumption]. }
  unfold incrementItemViews.
  destruct (getItem st id) as [item|] eqn:E; [|apply Hrefl].
  unfold getItem in E. cbn -[Js.set Js.values].
  induction (items st) as [|[k v] m IH]; [discriminate|].
  simpl in *. destruct (k =? id).
  - injection E as ->. simpl. constructor; [|apply Hrefl].
    split; [apply same_but_views_add_view, same_but_views_refl | now right].
  - simpl. constructor; [apply same_or_viewed_refl | now apply IH].
Qed.

Lemma passes_same_but_views (o : GetItemsOptions) (a b : Item.t) :
  same_or_viewed a b -> passes o a = passes o b.
Proof.
  intros [(_ & Hu & _ & Ht & _ & Hs & _) _]. unfold passes.
  now rewrite Hu, Ht, Hs.
Qed.

Lemma found_same_but_views (tzOffset : Z -> Z) (query : string)
  (options : option SearchOptions) (a b : Item.t) :
  same_or_viewed a b ->
  found tzOffset query options a = found tzOffset query options b.
Proof.
  intros [(_ & _ & Hn & Ht & Hd & Hs & Hdate & Hl & _) _].
  unfold found, matches_query. now rewrite Hn, Ht, Hd, Hs, Hdate, Hl.
Qed.

Lemma createdAt_same_but_views (a b : Item.t) :
  same_or_viewed a b -> Item.createdAt a = Item.createdAt b.
Proof. intros [H _]. apply H. Qed.

(** X27.  Counting a view changes no listing but for the count: after
    [incrementItemViews], [getItems], with any options, a page among them,
    and [searchItems], with any query and filters, return the same items in
    the same order as before, each as it was or with one more view. *)
Theorem incrementItemViews_keeps_listings (st : MemStorage) (id : Z) :
  (forall options,
      Forall2 same_or_viewed
        (getItems (incrementItemViews st id) options) (getItems st options))
  /\ (forall tzOffset query options,
        Forall2 same_or_viewed
          (searchItems tzOffset (incrementItemViews st id) query options)
          (searchItems tzOffset st query options)).
Proof.
  pose proof (incrementItemViews_values st id) as Hvalues.
  split.
  - intros [o|]; [|exact Hvalues].
    rewrite !getItems_options. cbv zeta.
    assert (Hsorted :
              Forall2 same_or_viewed
                (Js.sort_desc Item.createdAt
                   (filter (passes o)
                      (Js.values (items (incrementItemViews st id)))))
                (Js.sort_desc Item.createdAt
                   (filter (passes o) (Js.values (items st))))).
    { apply Forall2_sort_related; [apply createdAt_same_but_views|].
      apply Forall2_filter_related; [apply passes_same_but_views | exact Hvalues]. }
    destruct (Js.truthy_number (g_limit o)); [|exact Hsorted].
    now apply Forall2_slice_related.
  - intros tzOffset query options. rewrite !searchItems_found.
    apply Forall2_sort_related; [apply createdAt_same_but_views|].
    apply Forall2_filter_related; [|exact Hvalues].
    apply found_same_but_views.
Qed.
